(** * pytorchvideo.data.encoded_video: backend selection and loading

    A shallow embedding of [select_video_class] and
    [EncodedVideo.from_path] (pytorchvideo/data/encoded_video.py).

    - Python floats are the kernel's binary64 floats ([PrimFloat]), so the
      arithmetic of lines 78-85 is executed bit for bit; general facts about
      it are derived from the IEEE-754 specification of the operations
      ([FloatAxioms], [SpecFloat]).
    - Python ints are [Z].
    - The keyword dictionary [**other_args] is a [gmap string pyval].
    - The collaborators (the path manager and OpenCV's [VideoCapture]) are
      fields of a [world]; every call to them is logged in a trace, so that
      what was touched, and in which order, can be stated.
    - The local imports of the backend modules are logged and succeed; the
      backend constructor is not run: the model records the call and its
      arguments, so [Ok v] says that the constructor is called with the
      fields of [v], not that it returns.
    - [pathlib.Path] is the POSIX flavour. *)

From Stdlib Require Import ZArith Lia Bool Floats Ascii String.
From stdpp Require Import gmap strings list fin_maps.

Local Open Scope Z_scope.

(** ** Python values *)

(** The option values the loader inspects: [None], [bool], [int], [float]. *)
Inductive pyval :=
| PyNone
| PyBool (b : bool)
| PyInt (z : Z)
| PyFloat (f : float).

(** Exceptions that can leave the two functions. *)
Inductive exn :=
| OSError (path : string)
    (* g_pathmgr.open(file_path, "rb") failed *)
| ValueError_invalid_video (path : string)
    (* line 76: Invalid video object at "{file_path}" *)
| ValueError_not_a_DecoderType (decoder : string)
    (* DecoderType(decoder): 'x' is not a valid DecoderType *)
| NotImplementedError_unknown_decoder (decoder : string)
    (* line 38: Unknown decoder type {decoder} *)
| TypeError
    (* unsupported operand type(s) *)
| OverflowError
    (* int too large to convert to float; cannot convert float infinity *)
| ValueError_nan
    (* cannot convert float NaN to integer *)
| ZeroDivisionError.

Inductive result (A : Type) :=
| Ok (a : A)
| Raise (e : exn).
Arguments Ok {A} a.
Arguments Raise {A} e.

(** *** Numbers *)

(** [float(z)] for a Python int: correctly rounded (ties to even), and
    [OverflowError] when the rounded value does not fit a double. *)
Definition float_of_int (z : Z) : result float :=
  match binary_normalize prec emax z 0 false with
  | S754_infinity _ => Raise OverflowError
  | sf => Ok (SF2Prim sf)
  end.

(** [int(f)] for a Python float: truncation toward zero. *)
Definition int_of_float (f : float) : result Z :=
  match Prim2SF f with
  | S754_zero _ => Ok 0
  | S754_infinity _ => Raise OverflowError
  | S754_nan => Raise ValueError_nan
  | S754_finite s m e => Ok (cond_Zopp s (Z.shiftl (Z.pos m) e))
  end.

(** [bool(v)], as the [if] of line 70 evaluates it. *)
Definition py_truthy (v : pyval) : bool :=
  match v with
  | PyNone => false
  | PyBool b => b
  | PyInt z => negb (z =? 0)
  | PyFloat f => negb (f =? 0)%float
  end.

(** [v * x] where [x] is a float: the left operand is converted to float. *)
Definition py_mul_float (v : pyval) (x : float) : result float :=
  match v with
  | PyNone => Raise TypeError
  | PyBool b => Ok ((if b then 1 else 0) * x)%float
  | PyInt z =>
      match float_of_int z with
      | Ok fz => Ok (fz * x)%float
      | Raise e => Raise e
      end
  | PyFloat f => Ok (f * x)%float
  end.

(** [x / y] on floats. *)
Definition py_truediv (x y : float) : result float :=
  if (y =? 0)%float then Raise ZeroDivisionError else Ok (x / y)%float.

(** [int(v)]. *)
Definition py_int (v : pyval) : result Z :=
  match v with
  | PyNone => Raise TypeError
  | PyBool b => Ok (if b then 1 else 0)
  | PyInt z => Ok z
  | PyFloat f => int_of_float f
  end.

(** ** Collaborators and effects *)

(** The two frame properties the loader queries. *)
Inductive cap_prop := CAP_PROP_FRAME_WIDTH | CAP_PROP_FRAME_HEIGHT.

(** The three backend classes, defined in sibling modules. *)
Inductive backend := EncodedVideoPyAV | EncodedVideoTorchVision | EncodedVideoDecord.

Global Instance backend_eq_dec : EqDecision backend.
Proof. solve_decision. Defined.

(** What the function does to the outside, in order. *)
Inductive event :=
| EvOpen (path : string)                    (* g_pathmgr.open(path, "rb") *)
| EvRead (path : string)                    (* fh.read() *)
| EvClose (path : string)                   (* leaving the with block *)
| EvCapture (path : string)                 (* cv2.VideoCapture(path) *)
| EvGet (path : string) (prop : cap_prop)   (* video_capture.get(prop) *)
| EvImport (cls : backend).                 (* from .encoded_video_x import X *)

(** The outside: what the path manager serves ([None]: opening raises) and
    what OpenCV reports for a path (0.0 for a source it cannot open). *)
Record world := World {
  pathmgr_contents : string -> option (list Byte.byte);
  capture_get : string -> cap_prop -> float;
}.

(** Computations that read the world, log events and may raise. *)
Definition M (A : Type) : Type := world -> list event * result A.

Global Instance M_ret : MRet M := fun A a _ => ([], Ok a).
Global Instance M_bind : MBind M := fun A B f m w =>
  match m w with
  | (t1, Ok a) => let '(t2, r) := f a w in (t1 ++ t2, r)
  | (t1, Raise e) => (t1, Raise e)
  end.

Definition raise {A} (e : exn) : M A := fun _ => ([], Raise e).
Definition emit (ev : event) : M unit := fun _ => ([ev], Ok tt).
Definition lift {A} (r : result A) : M A := fun _ => ([], r).

Definition trace {A} (x : list event * result A) : list event := fst x.
Definition outcome {A} (x : list event * result A) : result A := snd x.

(** Lines 66-67: [with g_pathmgr.open(file_path, "rb") as fh: fh.read()].
    Either the open raises, or the whole file is read and the handle
    closed; a read that fails after a successful open is not modelled. *)
Definition g_pathmgr_read (file_path : string) : M (list Byte.byte) := fun w =>
  match pathmgr_contents w file_path with
  | None => ([EvOpen file_path], Raise (OSError file_path))
  | Some b => ([EvOpen file_path; EvRead file_path; EvClose file_path], Ok b)
  end.

(** Line 71: [cv2.VideoCapture(file_path)]. *)
Definition VideoCapture (file_path : string) : M unit := emit (EvCapture file_path).

(** Lines 72-73: [video_capture.get(prop)]. *)
Definition VideoCapture_get (file_path : string) (prop : cap_prop) : M float := fun w =>
  ([EvGet file_path prop], Ok (capture_get w file_path prop)).

(** A local import of a backend module. *)
Definition import (cls : backend) : M unit := emit (EvImport cls).

(** ** The decoder enumeration *)

(** Modelled from the spec: the enumeration [DecoderType] of
    pytorchvideo/data/decoder.py, which is imported but not part of the
    sources at hand. The spec gives its tokens as the fixed set
    "pyav", "torchvision", "decord". *)
Inductive DecoderType := PYAV | TORCHVISION | DECORD.

Global Instance DecoderType_eq_dec : EqDecision DecoderType.
Proof. solve_decision. Defined.

Definition DecoderType_value (d : DecoderType) : string :=
  match d with
  | PYAV => "pyav"
  | TORCHVISION => "torchvision"
  | DECORD => "decord"
  end.

Definition DecoderType_members : list DecoderType := [PYAV; TORCHVISION; DECORD].

(** [DecoderType(decoder)]: lookup of a member by value; an [Enum] raises
    [ValueError] when no member has the value. *)
Definition DecoderType_call (decoder : string) : result DecoderType :=
  match List.find (fun d => bool_decide (DecoderType_value d = decoder)) DecoderType_members with
  | Some d => Ok d
  | None => Raise (ValueError_not_a_DecoderType decoder)
  end.

(** ** select_video_class (lines 18-40) *)

Definition select_video_class (decoder : string) : M backend :=
  d ← lift (DecoderType_call decoder);
  if bool_decide (d = PYAV) then
    import EncodedVideoPyAV;; mret EncodedVideoPyAV
  else
    d ← lift (DecoderType_call decoder);
    if bool_decide (d = TORCHVISION) then
      import EncodedVideoTorchVision;; mret EncodedVideoTorchVision
    else
      d ← lift (DecoderType_call decoder);
      if bool_decide (d = DECORD) then
        import EncodedVideoDecord;; mret EncodedVideoDecord
      else
        raise (NotImplementedError_unknown_decoder decoder).

(** ** pathlib.Path(file_path).name (POSIX flavour) *)

(** [s.split("/")]. *)
Fixpoint split_slash (s : string) : list string :=
  match s with
  | EmptyString => [EmptyString]
  | String c s' =>
      if Ascii.eqb c "/"%char then EmptyString :: split_slash s'
      else
        match split_slash s' with
        | [] => [String c EmptyString]
        | x :: xs => String c x :: xs
        end
  end.

(** The components pathlib keeps after the root: the pieces between
    slashes, empty pieces and "." dropped. *)
Definition path_tail (p : string) : list string :=
  filter (fun x => x ≠ EmptyString ∧ x ≠ ".") (split_slash p).

(** [.name]: the last component, or the empty string when there is none. *)
Definition Path_name (p : string) : string :=
  default EmptyString (last (path_tail p)).

(** ** EncodedVideo.from_path (lines 49-94) *)

(** The call [video_cls(file=..., video_name=..., decode_video=...,
    decode_audio=..., **other_args)], recorded with its arguments. The
    backend classes live in other modules; the model stops at the call. *)
Record video := Video {
  video_cls : backend;
  file : list Byte.byte;
  video_name : string;
  decode_video : bool;
  decode_audio : bool;
  kwargs : gmap string pyval;
}.

(** The keywords the call of lines 88-94 passes explicitly. In a real call
    only "file" and "video_name" can be keys of [**other_args]: Python binds
    "decode_video" and "decode_audio" to from_path's own parameters; option
    maps holding them stand for no call, and the model lets none through. *)
Definition explicit_keywords : list string :=
  ["file"; "video_name"; "decode_video"; "decode_audio"].

(** No forwarded option repeats a keyword the loader passes itself. *)
Definition no_keyword_clash (other_args : gmap string pyval) : Prop :=
  Forall (fun k => other_args !! k = None) explicit_keywords.

Global Instance no_keyword_clash_dec other_args : Decision (no_keyword_clash other_args).
Proof. unfold no_keyword_clash. apply _. Defined.

(** A key of [**other_args] that repeats an explicit keyword makes the call
    itself raise [TypeError] (multiple values for a keyword argument). *)
Definition call_video_cls (cls : backend) (file : list Byte.byte) (video_name : string)
    (decode_video decode_audio : bool) (other_args : gmap string pyval) : M video :=
  if bool_decide (no_keyword_clash other_args)
  then mret (Video cls file video_name decode_video decode_audio other_args)
  else raise TypeError.

(** Lines 75-85 on the probed numbers: the validity check, the two branches
    and the two [int(...)] conversions; returns (width, height). *)
Definition scaled_size (file_path : string) (short_side_scale : pyval)
    (width height : float) : result (Z * Z) :=
  if (width =? 0)%float || (height =? 0)%float then
    Raise (ValueError_invalid_video file_path)
  else
    let branch : result (pyval * pyval) :=
      if (width <? height)%float then
        match py_mul_float short_side_scale height with
        | Raise e => Raise e
        | Ok p =>
            match py_truediv p width with
            | Raise e => Raise e
            | Ok height => Ok (short_side_scale, PyFloat height)
            end
        end
      else
        match py_mul_float short_side_scale width with
        | Raise e => Raise e
        | Ok p =>
            match py_truediv p height with
            | Raise e => Raise e
            | Ok width => Ok (PyFloat width, short_side_scale)
            end
        end in
    match branch with
    | Raise e => Raise e
    | Ok (width, height) =>
        match py_int width with
        | Raise e => Raise e
        | Ok wi =>
            match py_int height with
            | Raise e => Raise e
            | Ok hi => Ok (wi, hi)
            end
        end
    end.

Definition from_path (file_path : string) (decode_video decode_audio : bool)
    (decoder : string) (other_args : gmap string pyval) : M video :=
  video_file ← g_pathmgr_read file_path;
  (* short_side_scale = other_args.pop("short_side_scale", None) *)
  let short_side_scale := default PyNone (other_args !! "short_side_scale") in
  let other_args := delete "short_side_scale" other_args in
  other_args ←
    (if py_truthy short_side_scale then
       VideoCapture file_path;;
       width ← VideoCapture_get file_path CAP_PROP_FRAME_WIDTH;
       height ← VideoCapture_get file_path CAP_PROP_FRAME_HEIGHT;
       '(wi, hi) ← lift (scaled_size file_path short_side_scale width height);
       mret (<["height" := PyInt hi]> (<["width" := PyInt wi]> other_args))
     else mret other_args);
  video_cls ← select_video_class decoder;
  call_video_cls video_cls video_file (Path_name file_path)
    decode_video decode_audio other_args.

(** ** Vocabulary of the statements *)

(** The backend class each member of the enumeration stands for. *)
Definition backend_of (d : DecoderType) : backend :=
  match d with
  | PYAV => EncodedVideoPyAV
  | TORCHVISION => EncodedVideoTorchVision
  | DECORD => EncodedVideoDecord
  end.

(** Events of the dimension probe. *)
Definition is_probe (ev : event) : bool :=
  match ev with
  | EvCapture _ | EvGet _ _ => true
  | _ => false
  end.

(** Events of file input. *)
Definition is_file_io (ev : event) : bool :=
  match ev with
  | EvOpen _ | EvRead _ | EvClose _ => true
  | _ => false
  end.

Definition supported_token (decoder : string) : Prop :=
  decoder = "pyav" ∨ decoder = "torchvision" ∨ decoder = "decord".

(** A world for the examples: one readable file, with the given probed size. *)
Definition demo_world (path : string) (width height : float) : world :=
  World (fun p => if bool_decide (p = path) then Some [] else None)
        (fun _ prop =>
           match prop with
           | CAP_PROP_FRAME_WIDTH => width
           | CAP_PROP_FRAME_HEIGHT => height
           end).

Definition read_events (p : string) : list event := [EvOpen p; EvRead p; EvClose p].

Definition probe_events (p : string) : list event :=
  [EvCapture p; EvGet p CAP_PROP_FRAME_WIDTH; EvGet p CAP_PROP_FRAME_HEIGHT].

(** Lines 87-94: selection and the constructor call. *)
Definition select_and_construct (decoder : string) (video_file : list Byte.byte)
    (name : string) (dv da : bool) (other_args : gmap string pyval) : M video :=
  video_cls ← select_video_class decoder;
  call_video_cls video_cls video_file name dv da other_args.

(** The requested short side: the value popped at line 69. *)
Definition popped_scale (other_args : gmap string pyval) : pyval :=
  default PyNone (other_args !! "short_side_scale").

(** What reaches the constructor under "width" and "height", if anything. *)
Definition forwarded_size (x : list event * result video) : option (option pyval * option pyval) :=
  match outcome x with
  | Ok v => Some (kwargs v !! "width", kwargs v !! "height")
  | Raise _ => None
  end.

(** Options for the examples: a scale, a width to be overwritten, and an
    option the loader has no business with. *)
Definition demo_args : gmap string pyval :=
  {["short_side_scale" := PyInt 320; "width" := PyInt 7; "perform_seek" := PyBool true]}.

Fixpoint has_slash (s : string) : bool :=
  match s with
  | EmptyString => false
  | String c s' => Ascii.eqb c "/"%char || has_slash s'
  end.

(** A final segment that names a file: not empty, not ".", no slash in it. *)
Definition file_segment (base : string) : Prop :=
  base ≠ EmptyString ∧ base ≠ "." ∧ has_slash base = false.

(** ["/".join(l)]. *)
Fixpoint join_slash (l : list string) : string :=
  match l with
  | [] => EmptyString
  | [x] => x
  | x :: l' => x +:+ String "/" (join_slash l')
  end.

(** The final segment of a path, directories stripped, told from the shape
    of the path alone: a file segment standing alone or after a directory
    part is the final segment; a trailing slash and a trailing "." segment
    do not count; the empty path and "." have none (the empty name). *)
Inductive final_segment_of : string -> string -> Prop :=
| final_alone base :
    file_segment base -> final_segment_of base base
| final_after_dir dir base :
    file_segment base -> final_segment_of (dir +:+ String "/" base) base
| final_trailing_slash p n :
    final_segment_of p n -> final_segment_of (p +:+ "/") n
| final_trailing_dot p n :
    final_segment_of p n -> final_segment_of (p +:+ "/.") n
| final_empty : final_segment_of EmptyString EmptyString
| final_dot : final_segment_of "." EmptyString.

(** Locations at which rounding to nearest may go up. *)
Definition loc_up (l : location) : bool :=
  match l with
  | loc_Inexact Eq | loc_Inexact Gt => true
  | _ => false
  end.

(** The binary64 representation of a whole number [n], [0 < n < 2^53]:
    a 53-bit mantissa and the matching exponent. *)
Definition canon (sx : bool) (n : Z) : spec_float :=
  S754_finite sx (Z.to_pos (n * 2 ^ (53 - Zdigits2 n))) (Zdigits2 n - 53).

(** The float nearest to the whole number [z]; exact below 2^53. *)
Definition Z2F (z : Z) : float := SF2Prim (binary_normalize prec emax z 0 false).

(** The output size in the words of the spec: the shorter native side gets
    the target; the other side is the native length scaled by
    target/shorter, rounded toward zero ([Z.quot]); when the sides are equal,
    height counts as the shorter one. *)
Definition short_side_spec (target width height : Z) : Z * Z :=
  if width <? height
  then (target, Z.quot (height * target) width)
  else (Z.quot (width * target) height, target).

(** * Properties *)

(** ** The enumeration and the selector *)

Ltac solve_no_clash :=
  unfold no_keyword_clash, explicit_keywords;
  repeat (constructor; [vm_compute; reflexivity|]); constructor.

Ltac run_monad :=
  unfold select_video_class, call_video_cls, g_pathmgr_read, VideoCapture,
    VideoCapture_get, import, emit, lift, raise, mbind, M_bind, mret, M_ret.

Lemma DecoderType_call_Ok (decoder : string) (d : DecoderType) :
  DecoderType_call decoder = Ok d <-> DecoderType_value d = decoder.
Proof.
  unfold DecoderType_call, DecoderType_members. simpl.
  repeat case_bool_decide; split; intros Hd; subst;
    try (inversion Hd; subst; clear Hd); try destruct d; simpl in *;
    try congruence; try reflexivity.
Qed.

Lemma DecoderType_call_Raise (decoder : string) :
  ~ supported_token decoder ->
  DecoderType_call decoder = Raise (ValueError_not_a_DecoderType decoder).
Proof.
  intros Hn. unfold DecoderType_call, DecoderType_members. simpl.
  repeat case_bool_decide; try reflexivity; exfalso; apply Hn;
    unfold supported_token; simpl in *; auto.
Qed.

Lemma DecoderType_call_supported (decoder : string) :
  supported_token decoder -> exists d, DecoderType_call decoder = Ok d.
Proof.
  intros [-> | [-> | ->]]; [exists PYAV | exists TORCHVISION | exists DECORD]; reflexivity.
Qed.

Lemma select_video_class_Ok (decoder : string) (d : DecoderType) (w : world) :
  DecoderType_call decoder = Ok d ->
  select_video_class decoder w = ([EvImport (backend_of d)], Ok (backend_of d)).
Proof.
  intros H. run_monad. rewrite H. destruct d; reflexivity.
Qed.

Lemma select_video_class_Raise (decoder : string) (w : world) :
  ~ supported_token decoder ->
  select_video_class decoder w = ([], Raise (ValueError_not_a_DecoderType decoder)).
Proof.
  intros H. run_monad. rewrite (DecoderType_call_Raise _ H). reflexivity.
Qed.

(** ** The loader, path by path *)

Section Loader.
Variables (file_path : string) (dv da : bool) (decoder : string).
Variable other_args : gmap string pyval.
Variable w : world.

Lemma from_path_open_fails :
  pathmgr_contents w file_path = None ->
  from_path file_path dv da decoder other_args w = ([EvOpen file_path], Raise (OSError file_path)).
Proof.
  intros H. unfold from_path. run_monad. rewrite H. reflexivity.
Qed.

Lemma from_path_unscaled (b : list Byte.byte) :
  pathmgr_contents w file_path = Some b ->
  py_truthy (popped_scale other_args) = false ->
  from_path file_path dv da decoder other_args w =
    let '(t, r) := select_and_construct decoder b (Path_name file_path) dv da
                     (delete "short_side_scale" other_args) w in
    (read_events file_path ++ t, r).
Proof.
  intros H Hs. unfold from_path, select_and_construct, popped_scale in *. run_monad.
  rewrite H, Hs. simpl.
  destruct (DecoderType_call decoder) as [d|e]; [|reflexivity].
  repeat (case_bool_decide; simpl; try reflexivity).
Qed.

Lemma from_path_scaled (b : list Byte.byte) :
  pathmgr_contents w file_path = Some b ->
  py_truthy (popped_scale other_args) = true ->
  from_path file_path dv da decoder other_args w =
    match scaled_size file_path (popped_scale other_args)
            (capture_get w file_path CAP_PROP_FRAME_WIDTH)
            (capture_get w file_path CAP_PROP_FRAME_HEIGHT) with
    | Raise e => (read_events file_path ++ probe_events file_path, Raise e)
    | Ok (wi, hi) =>
        let '(t, r) := select_and_construct decoder b (Path_name file_path) dv da
                         (<["height" := PyInt hi]>
                            (<["width" := PyInt wi]>
                               (delete "short_side_scale" other_args))) w in
        (read_events file_path ++ probe_events file_path ++ t, r)
    end.
Proof.
  intros H Hs. unfold from_path, select_and_construct, popped_scale in *. run_monad.
  rewrite H, Hs. simpl.
  destruct (scaled_size _ _ _ _) as [[wi hi]|e]; [|reflexivity].
  destruct (DecoderType_call decoder) as [d|e]; [|reflexivity].
  repeat (case_bool_decide; simpl; try reflexivity).
Qed.
End Loader.

Lemma select_and_construct_Ok decoder d b name dv da (other_args : gmap string pyval) w :
  DecoderType_call decoder = Ok d ->
  no_keyword_clash other_args ->
  select_and_construct decoder b name dv da other_args w =
    ([EvImport (backend_of d)], Ok (Video (backend_of d) b name dv da other_args)).
Proof.
  intros Hd Hc. unfold select_and_construct.
  unfold mbind at 1. unfold M_bind. rewrite (select_video_class_Ok _ _ _ Hd).
  unfold call_video_cls. rewrite bool_decide_eq_true_2 by exact Hc. reflexivity.
Qed.

Lemma no_keyword_clash_delete (other_args : gmap string pyval) :
  no_keyword_clash other_args ->
  no_keyword_clash (delete "short_side_scale" other_args).
Proof.
  unfold no_keyword_clash, explicit_keywords. rewrite !Forall_cons.
  intros (H1 & H2 & H3 & H4 & _).
  repeat split; try (rewrite lookup_delete_ne by discriminate; assumption). constructor.
Qed.

Lemma no_keyword_clash_sized (other_args : gmap string pyval) (wi hi : pyval) :
  no_keyword_clash other_args ->
  no_keyword_clash (<["height" := hi]> (<["width" := wi]> (delete "short_side_scale" other_args))).
Proof.
  unfold no_keyword_clash, explicit_keywords. rewrite !Forall_cons.
  intros (H1 & H2 & H3 & H4 & _).
  repeat split;
    try (rewrite !lookup_insert_ne by discriminate;
         rewrite lookup_delete_ne by discriminate; assumption).
  constructor.
Qed.

Lemma select_and_construct_unsupported decoder b name dv da (other_args : gmap string pyval) w :
  ~ supported_token decoder ->
  select_and_construct decoder b name dv da other_args w =
    ([], Raise (ValueError_not_a_DecoderType decoder)).
Proof.
  intros Hd. unfold select_and_construct.
  unfold mbind at 1. unfold M_bind. rewrite (select_video_class_Raise _ _ Hd). reflexivity.
Qed.

Lemma select_and_construct_inv decoder b name dv da (other_args : gmap string pyval) w t v :
  select_and_construct decoder b name dv da other_args w = (t, Ok v) ->
  exists d, DecoderType_call decoder = Ok d /\ t = [EvImport (backend_of d)] /\
            v = Video (backend_of d) b name dv da other_args.
Proof.
  unfold select_and_construct. run_monad.
  destruct (DecoderType_call decoder) as [d|e] eqn:Hd; [|discriminate].
  intros H. exists d. split; [reflexivity|].
  destruct d; simpl in H; case_bool_decide; simpl in H; inversion H; auto.
Qed.

Lemma select_and_construct_no_probe decoder b name dv da (other_args : gmap string pyval) w :
  forallb (fun ev => negb (is_probe ev || is_file_io ev))
    (trace (select_and_construct decoder b name dv da other_args w)) = true.
Proof.
  unfold select_and_construct. run_monad.
  destruct (DecoderType_call decoder) as [d|e]; [|reflexivity].
  destruct d; simpl; case_bool_decide; reflexivity.
Qed.

Lemma from_path_no_scale_trace file_path dv da decoder (other_args : gmap string pyval) w :
  py_truthy (popped_scale other_args) = false ->
  forallb (fun ev => negb (is_probe ev)) (trace (from_path file_path dv da decoder other_args w)) = true.
Proof.
  intros Hs. destruct (pathmgr_contents w file_path) as [b|] eqn:Hb.
  - rewrite (from_path_unscaled _ _ _ _ _ _ b Hb Hs).
    pose proof (select_and_construct_no_probe decoder b (Path_name file_path) dv da
                  (delete "short_side_scale" other_args) w) as Hp.
    destruct (select_and_construct _ _ _ _ _ _ _) as [t r]. unfold trace in *. simpl in *.
    rewrite forallb_forall in *. intros ev Hin. specialize (Hp ev Hin).
    destruct (is_probe ev); [discriminate|reflexivity].
  - rewrite from_path_open_fails by assumption. reflexivity.
Qed.

Lemma from_path_no_scale_Ok file_path dv da decoder (other_args : gmap string pyval) w v :
  py_truthy (popped_scale other_args) = false ->
  outcome (from_path file_path dv da decoder other_args w) = Ok v ->
  kwargs v = delete "short_side_scale" other_args.
Proof.
  intros Hs. destruct (pathmgr_contents w file_path) as [b|] eqn:Hb.
  - rewrite (from_path_unscaled _ _ _ _ _ _ b Hb Hs).
    destruct (select_and_construct _ _ _ _ _ _ _) as [t r] eqn:E. unfold outcome. simpl.
    intros ->. apply select_and_construct_inv in E as (d & _ & _ & ->). reflexivity.
  - rewrite from_path_open_fails by assumption. discriminate.
Qed.

Lemma from_path_no_scale_total file_path dv da decoder (other_args : gmap string pyval) w b d :
  py_truthy (popped_scale other_args) = false ->
  pathmgr_contents w file_path = Some b ->
  DecoderType_call decoder = Ok d ->
  no_keyword_clash other_args ->
  from_path file_path dv da decoder other_args w =
    (read_events file_path ++ [EvImport (backend_of d)],
     Ok (Video (backend_of d) b (Path_name file_path) dv da (delete "short_side_scale" other_args))).
Proof.
  intros Hs Hb Hd Hc. rewrite (from_path_unscaled _ _ _ _ _ _ b Hb Hs).
  rewrite (select_and_construct_Ok _ d) by
    (try assumption; apply no_keyword_clash_delete, Hc).
  reflexivity.
Qed.

Lemma from_path_scale_total file_path dv da decoder (other_args : gmap string pyval) w b d wi hi :
  py_truthy (popped_scale other_args) = true ->
  pathmgr_contents w file_path = Some b ->
  scaled_size file_path (popped_scale other_args)
    (capture_get w file_path CAP_PROP_FRAME_WIDTH)
    (capture_get w file_path CAP_PROP_FRAME_HEIGHT) = Ok (wi, hi) ->
  DecoderType_call decoder = Ok d ->
  no_keyword_clash other_args ->
  from_path file_path dv da decoder other_args w =
    (read_events file_path ++ probe_events file_path ++ [EvImport (backend_of d)],
     Ok (Video (backend_of d) b (Path_name file_path) dv da
           (<["height" := PyInt hi]>
              (<["width" := PyInt wi]> (delete "short_side_scale" other_args))))).
Proof.
  intros Hs Hb Hsz Hd Hc. rewrite (from_path_scaled _ _ _ _ _ _ b Hb Hs), Hsz.
  rewrite (select_and_construct_Ok _ d) by
    (try assumption; apply no_keyword_clash_sized, Hc).
  reflexivity.
Qed.

Lemma from_path_scale_Ok file_path dv da decoder (other_args : gmap string pyval) w v :
  py_truthy (popped_scale other_args) = true ->
  outcome (from_path file_path dv da decoder other_args w) = Ok v ->
  exists wi hi,
    scaled_size file_path (popped_scale other_args)
      (capture_get w file_path CAP_PROP_FRAME_WIDTH)
      (capture_get w file_path CAP_PROP_FRAME_HEIGHT) = Ok (wi, hi) /\
    kwargs v = <["height" := PyInt hi]>
                 (<["width" := PyInt wi]> (delete "short_side_scale" other_args)).
Proof.
  intros Hs. destruct (pathmgr_contents w file_path) as [b|] eqn:Hb.
  - rewrite (from_path_scaled _ _ _ _ _ _ b Hb Hs).
    destruct (scaled_size _ _ _ _) as [[wi hi]|e]; [|discriminate].
    destruct (select_and_construct _ _ _ _ _ _ _) as [t r] eqn:E. unfold outcome. simpl.
    intros ->. apply select_and_construct_inv in E as (d & _ & _ & ->).
    exists wi, hi. split; reflexivity.
  - rewrite from_path_open_fails by assumption. discriminate.
Qed.

(** ** Double-precision arithmetic on whole numbers *)

(** Number of binary digits *)
Lemma digits2_pos_bounds (p : positive) :
  2 ^ (Z.pos (digits2_pos p) - 1) <= Z.pos p < 2 ^ Z.pos (digits2_pos p).
Proof.
  induction p as [p IH | p IH |]; simpl digits2_pos.
  - rewrite Pos2Z.inj_succ. replace (Z.succ (Z.pos (digits2_pos p)) - 1) with (Z.succ (Z.pos (digits2_pos p) - 1)) by lia.
    rewrite !Z.pow_succ_r by lia. lia.
  - rewrite Pos2Z.inj_succ. replace (Z.succ (Z.pos (digits2_pos p)) - 1) with (Z.succ (Z.pos (digits2_pos p) - 1)) by lia.
    rewrite !Z.pow_succ_r by lia. lia.
  - simpl. lia.
Qed.

Lemma digits2_pos_unique (p : positive) (d : Z) :
  2 ^ (d - 1) <= Z.pos p < 2 ^ d -> Z.pos (digits2_pos p) = d.
Proof.
  intros [Hlo Hhi]. pose proof (digits2_pos_bounds p) as [Blo Bhi].
  assert (0 < d).
  { destruct (Z_lt_le_dec 0 d) as [|Hd]; [assumption|].
    assert (2 ^ d <= 2 ^ 0) by (destruct (Z_lt_le_dec d 0); [rewrite Z.pow_neg_r by lia; simpl; lia | apply Z.pow_le_mono_r; lia]).
    simpl in *. lia. }
  destruct (Z_lt_le_dec (Z.pos (digits2_pos p)) d) as [Hlt|Hge].
  - assert (2 ^ Z.pos (digits2_pos p) <= 2 ^ (d - 1)) by (apply Z.pow_le_mono_r; lia). lia.
  - destruct (Z_lt_le_dec d (Z.pos (digits2_pos p))) as [Hlt|Hle]; [|lia].
    assert (2 ^ d <= 2 ^ (Z.pos (digits2_pos p) - 1)) by (apply Z.pow_le_mono_r; lia). lia.
Qed.

(** Shifting a record right *)
Lemma shr_1_m (mrs : shr_record) :
  0 <= shr_m mrs -> shr_m (shr_1 mrs) = shr_m mrs / 2.
Proof.
  destruct mrs as [m r s]. simpl. intros Hm.
  destruct m as [|[p|p|]|p]; simpl; try lia; try reflexivity.
  - apply Z.div_unique with (r := 1); lia.
  - apply Z.div_unique with (r := 0); lia.
Qed.

Lemma shr_1_r (mrs : shr_record) :
  0 <= shr_m mrs -> shr_r (shr_1 mrs) = Z.odd (shr_m mrs).
Proof.
  destruct mrs as [m r s]. simpl. intros Hm.
  destruct m as [|[p|p|]|p]; simpl; try reflexivity; lia.
Qed.

Lemma iter_pos_shr_1_m (p : positive) (mrs : shr_record) :
  0 <= shr_m mrs -> shr_m (SpecFloat.iter_pos shr_1 p mrs) = shr_m mrs / 2 ^ Z.pos p.
Proof.
  revert mrs. induction p as [p IH | p IH |]; intros mrs Hm; simpl SpecFloat.iter_pos.
  - assert (0 <= shr_m (shr_1 mrs)) by (rewrite shr_1_m by assumption; apply Z.div_pos; lia).
    assert (0 <= shr_m (SpecFloat.iter_pos shr_1 p (shr_1 mrs))) by (rewrite IH by assumption; apply Z.div_pos; lia).
    rewrite IH, IH, shr_1_m by assumption.
    rewrite !Z.div_div by lia. f_equal.
    rewrite Pos2Z.inj_xI, <- Z.pow_add_r, <- (Z.pow_1_r 2) at 1 by lia.
    rewrite <- Z.pow_add_r by lia. f_equal. lia.
  - assert (0 <= shr_m (SpecFloat.iter_pos shr_1 p mrs)) by (rewrite IH by assumption; apply Z.div_pos; lia).
    rewrite IH, IH by assumption.
    rewrite !Z.div_div by lia. f_equal.
    rewrite Pos2Z.inj_xO, <- Z.pow_add_r by lia. f_equal. lia.
  - rewrite shr_1_m by assumption. reflexivity.
Qed.

Lemma iter_pos_shr_1_r (p : positive) (mrs : shr_record) :
  0 <= shr_m mrs -> shr_r (SpecFloat.iter_pos shr_1 p mrs) = Z.testbit (shr_m mrs) (Z.pos p - 1).
Proof.
  revert mrs. induction p as [p IH | p IH |]; intros mrs Hm; simpl SpecFloat.iter_pos.
  - assert (0 <= shr_m (shr_1 mrs)) by (rewrite shr_1_m by assumption; apply Z.div_pos; lia).
    assert (0 <= shr_m (SpecFloat.iter_pos shr_1 p (shr_1 mrs))) by (rewrite iter_pos_shr_1_m by assumption; apply Z.div_pos; lia).
    rewrite IH, iter_pos_shr_1_m, shr_1_m by assumption.
    rewrite Z.div_div by lia.
    replace (2 * 2 ^ Z.pos p) with (2 ^ (Z.pos p + 1)) by (rewrite Z.pow_add_r by lia; lia).
    rewrite Z.div_pow2_bits by lia. f_equal. lia.
  - assert (0 <= shr_m (SpecFloat.iter_pos shr_1 p mrs)) by (rewrite iter_pos_shr_1_m by assumption; apply Z.div_pos; lia).
    rewrite IH, iter_pos_shr_1_m by assumption.
    rewrite Z.div_pow2_bits by lia. f_equal. lia.
  - rewrite shr_1_r by assumption. rewrite <- Z.bit0_odd. reflexivity.
Qed.

Lemma round_nearest_even_cases (m : Z) (l : location) :
  round_nearest_even m l = m \/ (loc_up l = true /\ round_nearest_even m l = m + 1).
Proof.
  destruct l as [|[| |]]; simpl; auto. destruct (Z.even m); auto.
Qed.

Lemma loc_of_shr_record_up (mrs : shr_record) :
  loc_up (loc_of_shr_record mrs) = shr_r mrs.
Proof. destruct mrs as [m [|] [|]]; reflexivity. Qed.

Lemma shr_record_of_loc_m (m : Z) (l : location) : shr_m (shr_record_of_loc m l) = m.
Proof. destruct l as [|[| |]]; reflexivity. Qed.

Lemma shr_record_of_loc_r (m : Z) (l : location) : shr_r (shr_record_of_loc m l) = loc_up l.
Proof. destruct l as [|[| |]]; reflexivity. Qed.

Lemma fexp_normal (e : Z) : -1074 <= e - 53 -> fexp prec emax e = e - 53.
Proof. unfold fexp, SpecFloat.emin, prec, emax. lia. Qed.

Lemma Zdigits2_bounds (m d : Z) :
  0 < m -> 2 ^ (d - 1) <= m < 2 ^ d -> Zdigits2 m = d.
Proof.
  intros Hm H. destruct m as [|p|p]; try lia. simpl. apply digits2_pos_unique, H.
Qed.

Lemma Zdigits2_range (m : Z) :
  0 < m -> 0 < Zdigits2 m /\ 2 ^ (Zdigits2 m - 1) <= m < 2 ^ Zdigits2 m.
Proof.
  intros Hm. destruct m as [|p|p]; try lia. simpl. split; [lia|apply digits2_pos_bounds].
Qed.

Lemma shr_fexp_normal (mx ex : Z) (lx : location) (k : Z) :
  0 < mx -> Zdigits2 mx = 53 + k -> -1074 <= ex + k ->
  shr_fexp prec emax mx ex lx =
    match k with
    | Z.pos p => (SpecFloat.iter_pos shr_1 p (shr_record_of_loc mx lx), ex + k)
    | _ => (shr_record_of_loc mx lx, ex)
    end.
Proof.
  intros Hm Hd He. unfold shr_fexp. rewrite Hd, fexp_normal by lia.
  replace (53 + k + ex - 53 - ex) with k by lia. reflexivity.
Qed.

Lemma binary_round_aux_normal (sx : bool) (mx ex : Z) (lx : location) (k : Z) :
  0 < mx -> Zdigits2 mx = 53 + k -> 0 <= k -> -1074 <= ex + k -> ex + k + 1 <= 971 ->
  let m' := mx / 2 ^ k in
  let up := if k =? 0 then loc_up lx else Z.testbit mx (k - 1) in
  2 ^ 52 <= m' < 2 ^ 53 /\
  (binary_round_aux prec emax sx mx ex lx = S754_finite sx (Z.to_pos m') (ex + k) \/
   (up = true /\ m' + 1 < 2 ^ 53 /\
    binary_round_aux prec emax sx mx ex lx = S754_finite sx (Z.to_pos (m' + 1)) (ex + k)) \/
   (up = true /\ m' + 1 = 2 ^ 53 /\
    binary_round_aux prec emax sx mx ex lx = S754_finite sx (Z.to_pos (2 ^ 52)) (ex + k + 1))).
Proof.
  intros Hm Hd Hk Hlo Hhi m' up.
  destruct (Zdigits2_range mx Hm) as [_ Hr]. rewrite Hd in Hr.
  replace (53 + k - 1) with (52 + k) in Hr by lia.
  rewrite !Z.pow_add_r in Hr by lia.
  assert (Hpk : 0 < 2 ^ k) by (apply Z.pow_pos_nonneg; lia).
  assert (Hm' : 2 ^ 52 <= m' < 2 ^ 53).
  { unfold m'. split.
    - apply Z.div_le_lower_bound; lia.
    - apply Z.div_lt_upper_bound; lia. }
  split; [exact Hm'|].
  unfold binary_round_aux. rewrite (shr_fexp_normal mx ex lx k) by assumption.
  (* the record after the first shift *)
  set (mrs := match k with
              | Z.pos p => (SpecFloat.iter_pos shr_1 p (shr_record_of_loc mx lx), ex + k)
              | _ => (shr_record_of_loc mx lx, ex)
              end).
  assert (Hmrs : shr_m (fst mrs) = m' /\ shr_r (fst mrs) = up /\ snd mrs = ex + k).
  { unfold mrs, m', up. destruct k as [|p|p]; try lia; simpl fst; simpl snd.
    - rewrite shr_record_of_loc_m, shr_record_of_loc_r. simpl. rewrite Z.div_1_r. repeat split; lia.
    - rewrite iter_pos_shr_1_m, iter_pos_shr_1_r, shr_record_of_loc_m
        by (rewrite shr_record_of_loc_m; lia).
      repeat split. }
  destruct mrs as [mrs' e']. simpl in Hmrs. destruct Hmrs as (Hm1 & Hr1 & He1). subst e'.
  rewrite Hm1.
  destruct (round_nearest_even_cases m' (loc_of_shr_record mrs')) as [-> | [Hup ->]].
  - (* not rounded up *)
    left. rewrite (shr_fexp_normal m' (ex + k) loc_Exact 0); try lia.
    + simpl. replace (Z.pos (Z.to_pos m')) with m' by lia.
      destruct m' as [|p|p]; try lia. simpl.
      destruct (Z.leb_spec (ex + k) (emax - prec)) as [_|Hbad]; [reflexivity|].
      unfold emax, prec in Hbad. lia.
    + apply Zdigits2_bounds; [lia|]. simpl. exact Hm'.
  - rewrite loc_of_shr_record_up, Hr1 in Hup.
    destruct (Z_lt_le_dec (m' + 1) (2 ^ 53)) as [Hlt|Hge].
    + right. left. split; [exact Hup|]. split; [exact Hlt|].
      rewrite (shr_fexp_normal (m' + 1) (ex + k) loc_Exact 0); try lia.
      * simpl shr_m. destruct (m' + 1) as [|p|p] eqn:E; try lia. simpl.
        destruct (Z.leb_spec (ex + k) (emax - prec)) as [_|Hbad]; [reflexivity|].
        unfold emax, prec in Hbad. lia.
      * apply Zdigits2_bounds; [lia|]. simpl (53 + 0 - 1). lia.
    + right. right. split; [exact Hup|]. assert (E : m' + 1 = 2 ^ 53) by lia.
      split; [exact E|]. rewrite E.
      rewrite (shr_fexp_normal (2 ^ 53) (ex + k) loc_Exact 1); try lia.
      * simpl.
        destruct (Z.leb_spec (ex + k + 1) (emax - prec)) as [_|Hbad]; [reflexivity|].
        unfold emax, prec in Hbad. lia.
      * reflexivity.
Qed.

Lemma canon_mantissa (n : Z) :
  0 < n < 2 ^ 53 ->
  0 < Zdigits2 n <= 53 /\
  2 ^ 52 <= n * 2 ^ (53 - Zdigits2 n) < 2 ^ 53.
Proof.
  intros [Hn Hlt]. destruct (Zdigits2_range n Hn) as [Hd [Hlo Hhi]].
  assert (Hd53 : Zdigits2 n <= 53).
  { destruct (Z_lt_le_dec 53 (Zdigits2 n)) as [Hgt|]; [|assumption].
    assert (2 ^ 53 <= 2 ^ (Zdigits2 n - 1)) by (apply Z.pow_le_mono_r; lia). lia. }
  split; [lia|].
  assert (Hp : 0 < 2 ^ (53 - Zdigits2 n)) by (apply Z.pow_pos_nonneg; lia).
  replace (2 ^ 52) with (2 ^ (Zdigits2 n - 1) * 2 ^ (53 - Zdigits2 n))
    by (rewrite <- Z.pow_add_r by lia; f_equal; lia).
  replace (2 ^ 53) with (2 ^ Zdigits2 n * 2 ^ (53 - Zdigits2 n))
    by (rewrite <- Z.pow_add_r by lia; f_equal; lia).
  split.
  - apply Z.mul_le_mono_nonneg_r; lia.
  - apply Z.mul_lt_mono_pos_r; lia.
Qed.

Lemma binary_round_canon (sx : bool) (p : positive) :
  Z.pos p < 2 ^ 53 -> binary_round prec emax sx p 0 = canon sx (Z.pos p).
Proof.
  intros Hp. destruct (canon_mantissa (Z.pos p)) as ([Hd Hd53] & Hm); [lia|].
  unfold binary_round. rewrite fexp_normal by (simpl Zdigits2 in *; lia).
  unfold shl_align. simpl Zdigits2 in *.
  replace (Z.pos (digits2_pos p) + 0 - 53 - 0) with (Z.pos (digits2_pos p) - 53) by lia.
  destruct (Z.pos (digits2_pos p) - 53) as [|q|q] eqn:E; try lia.
  - (* already 53 digits *)
    assert (E53 : Z.pos (digits2_pos p) = 53) by lia.
    destruct (binary_round_aux_normal sx (Z.pos p) 0 loc_Exact 0) as (_ & [H | [(Hup & _) | (Hup & _)]]);
      try lia; try discriminate Hup.
    + simpl. lia.
    + rewrite H. unfold canon. simpl Zdigits2. rewrite E53. simpl (2 ^ 0).
      rewrite Z.div_1_r, Z.mul_1_r. reflexivity.
  - (* shifted left *)
    assert (Eq : Z.pos (Pos.iter xO p q) = Z.pos p * 2 ^ Z.pos q).
    { change (Pos.iter xO p q) with (shift_pos q p). rewrite shift_pos_correct.
      rewrite Z.pow_pos_fold. lia. }
    assert (Hq : 53 - Z.pos (digits2_pos p) = Z.pos q) by lia.
    rewrite Hq in Hm.
    destruct (binary_round_aux_normal sx (Z.pos (Pos.iter xO p q)) (Z.pos (digits2_pos p) + 0 - 53) loc_Exact 0)
      as (_ & [H | [(Hup & _) | (Hup & _)]]); try lia; try discriminate Hup.
    + apply Zdigits2_bounds; [lia|]. rewrite Eq. simpl (53 + 0 - 1). simpl (53 + 0). exact Hm.
    + rewrite H. unfold canon. simpl Zdigits2. rewrite Hq, Eq. simpl (2 ^ 0).
      rewrite Z.div_1_r. f_equal. lia.
Qed.

Lemma canon_valid (sx : bool) (n : Z) :
  0 < n < 2 ^ 53 -> valid_binary (canon sx n) = true.
Proof.
  intros Hn. destruct (canon_mantissa n Hn) as ([Hd Hd53] & Hm).
  unfold canon, SpecFloat.valid_binary, bounded, canonical_mantissa.
  assert (Hdig : Z.pos (digits2_pos (Z.to_pos (n * 2 ^ (53 - Zdigits2 n)))) = 53).
  { apply digits2_pos_unique. rewrite Z2Pos.id by lia. exact Hm. }
  rewrite Hdig, fexp_normal by lia. apply andb_true_iff. split.
  - apply Z.eqb_eq. lia.
  - apply Z.leb_le. unfold emax, prec. lia.
Qed.

Lemma Prim2SF_Z2F (z : Z) :
  z <> 0 -> Z.abs z < 2 ^ 53 -> Prim2SF (Z2F z) = canon (z <? 0) (Z.abs z).
Proof.
  intros Hz Hlt. unfold Z2F, binary_normalize. destruct z as [|p|p]; [contradiction| |].
  - rewrite binary_round_canon by exact Hlt. apply Prim2SF_SF2Prim, canon_valid. simpl in *. lia.
  - rewrite binary_round_canon by exact Hlt. apply Prim2SF_SF2Prim, canon_valid. simpl in *. lia.
Qed.

Lemma float_of_int_small (z : Z) :
  Z.abs z < 2 ^ 53 -> float_of_int z = Ok (Z2F z).
Proof.
  intros Hlt. unfold float_of_int, Z2F, binary_normalize. destruct z as [|p|p]; [reflexivity| |];
    rewrite binary_round_canon by exact Hlt; reflexivity.
Qed.

(** Products of whole numbers are exact *)
Lemma Zdigits2_mul_lower (a b : Z) :
  0 < a -> 0 < b -> Zdigits2 a + Zdigits2 b - 1 <= Zdigits2 (a * b).
Proof.
  intros Ha Hb.
  destruct (Zdigits2_range a Ha) as [Hda [Halo _]].
  destruct (Zdigits2_range b Hb) as [Hdb [Hblo _]].
  destruct (Zdigits2_range (a * b) ltac:(lia)) as [Hdab [_ Hhi]].
  destruct (Z_lt_le_dec (Zdigits2 (a * b)) (Zdigits2 a + Zdigits2 b - 1)) as [Hlt|]; [|assumption].
  exfalso.
  assert (H1 : 2 ^ Zdigits2 (a * b) <= 2 ^ (Zdigits2 a - 1 + (Zdigits2 b - 1)))
    by (apply Z.pow_le_mono_r; lia).
  rewrite Z.pow_add_r in H1 by lia.
  assert (H2 : 2 ^ (Zdigits2 a - 1) * 2 ^ (Zdigits2 b - 1) <= a * b)
    by (apply Z.mul_le_mono_nonneg; try apply Z.pow_nonneg; lia).
  lia.
Qed.

Lemma SFmul_canon (sa sb : bool) (a b : Z) :
  0 < a -> 0 < b -> a * b < 2 ^ 53 ->
  SFmul prec emax (canon sa a) (canon sb b) = canon (xorb sa sb) (a * b).
Proof.
  intros Ha Hb Hab.
  assert (Ha53 : a < 2 ^ 53) by nia. assert (Hb53 : b < 2 ^ 53) by nia.
  destruct (canon_mantissa a) as ([Hda Hda53] & Hma); [lia|].
  destruct (canon_mantissa b) as ([Hdb Hdb53] & Hmb); [lia|].
  destruct (canon_mantissa (a * b)) as ([Hdab Hdab53] & Hmab); [lia|].
  pose proof (Zdigits2_mul_lower a b Ha Hb) as Hlow.
  set (da := Zdigits2 a) in *. set (db := Zdigits2 b) in *. set (dab := Zdigits2 (a * b)) in *.
  set (k := dab + 53 - da - db).
  assert (Hk : 52 <= k) by (unfold k; lia).
  assert (Hsplit : 2 ^ (53 - da) * 2 ^ (53 - db) = 2 ^ (53 - dab) * 2 ^ k)
    by (rewrite <- !Z.pow_add_r by lia; f_equal; unfold k; lia).
  assert (HP : a * 2 ^ (53 - da) * (b * 2 ^ (53 - db)) = a * b * 2 ^ (53 - dab) * 2 ^ k)
    by (replace (a * b * 2 ^ (53 - dab) * 2 ^ k) with (a * b * (2 ^ (53 - dab) * 2 ^ k)) by ring;
        rewrite <- Hsplit; ring).
  assert (Hk2 : 0 < 2 ^ k) by (apply Z.pow_pos_nonneg; lia).
  unfold canon at 1 2. fold da db. cbn [SFmul].
  rewrite Pos2Z.inj_mul, !Z2Pos.id by lia. rewrite HP.
  assert (Hpos : 0 < a * b * 2 ^ (53 - dab) * 2 ^ k) by (apply Z.mul_pos_pos; lia).
  assert (Hdig : Zdigits2 (a * b * 2 ^ (53 - dab) * 2 ^ k) = 53 + k).
  { apply Zdigits2_bounds; [lia|].
    replace (53 + k - 1) with (52 + k) by lia. rewrite !Z.pow_add_r by lia.
    split.
    - apply Z.mul_le_mono_nonneg_r; lia.
    - apply Z.mul_lt_mono_pos_r; lia. }
  destruct (binary_round_aux_normal (xorb sa sb) (a * b * 2 ^ (53 - dab) * 2 ^ k)
              (da - 53 + (db - 53)) loc_Exact k Hpos Hdig ltac:(lia)
              ltac:(unfold k; lia) ltac:(unfold k; lia))
    as (_ & [H | [(Hup & _) | (Hup & _)]]).
  - rewrite H. rewrite Z.div_mul by lia. unfold canon. fold dab. f_equal. unfold k. lia.
  - exfalso. destruct (Z.eqb_spec k 0) as [|_]; [lia|].
    rewrite Z.mul_pow2_bits_low in Hup by lia. discriminate Hup.
  - exfalso. destruct (Z.eqb_spec k 0) as [|_]; [lia|].
    rewrite Z.mul_pow2_bits_low in Hup by lia. discriminate Hup.
Qed.

(** Order of whole numbers *)
Lemma SFcompare_canon (a b : Z) :
  0 < a < 2 ^ 53 -> 0 < b < 2 ^ 53 ->
  SFcompare (canon false a) (canon false b) = Some (a ?= b).
Proof.
  intros Ha Hb.
  destruct (canon_mantissa a Ha) as ([Hda Hda53] & Hma).
  destruct (canon_mantissa b Hb) as ([Hdb Hdb53] & Hmb).
  destruct (Zdigits2_range a ltac:(lia)) as [_ [Halo Hahi]].
  destruct (Zdigits2_range b ltac:(lia)) as [_ [Hblo Hbhi]].
  unfold canon. cbn [SFcompare]. f_equal.
  destruct (Z.compare_spec (Zdigits2 a - 53) (Zdigits2 b - 53)) as [E|E|E].
  - change (Pos.compare_cont Eq) with Pos.compare.
    rewrite <- Z2Pos.inj_compare by lia.
    replace (Zdigits2 b) with (Zdigits2 a) by lia.
    assert (Hp : 0 < 2 ^ (53 - Zdigits2 a)) by (apply Z.pow_pos_nonneg; lia).
    destruct (Z.compare_spec a b) as [E'|E'|E'].
    + subst. apply Z.compare_refl.
    + apply Z.compare_lt_iff. apply Z.mul_lt_mono_pos_r; lia.
    + apply Z.compare_gt_iff. apply Z.mul_lt_mono_pos_r; lia.
  - symmetry. apply Z.compare_lt_iff.
    assert (2 ^ Zdigits2 a <= 2 ^ (Zdigits2 b - 1)) by (apply Z.pow_le_mono_r; lia). lia.
  - symmetry. apply Z.compare_gt_iff.
    assert (2 ^ Zdigits2 b <= 2 ^ (Zdigits2 a - 1)) by (apply Z.pow_le_mono_r; lia). lia.
Qed.

Lemma Z2F_ltb (a b : Z) :
  0 < a < 2 ^ 53 -> 0 < b < 2 ^ 53 -> (Z2F a <? Z2F b)%float = (a <? b).
Proof.
  intros Ha Hb. rewrite FloatAxioms.ltb_spec, !Prim2SF_Z2F by lia.
  replace (a <? 0) with false by (symmetry; apply Z.ltb_ge; lia).
  replace (b <? 0) with false by (symmetry; apply Z.ltb_ge; lia).
  rewrite !Z.abs_eq by lia. unfold SFltb. rewrite SFcompare_canon by assumption.
  unfold Z.ltb. destruct (a ?= b); reflexivity.
Qed.

Lemma Z2F_nonzero (a : Z) :
  0 < a < 2 ^ 53 -> (Z2F a =? 0)%float = false.
Proof.
  intros Ha. rewrite FloatAxioms.eqb_spec, Prim2SF_Z2F by lia.
  replace (a <? 0) with false by (symmetry; apply Z.ltb_ge; lia).
  reflexivity.
Qed.

(** Truncating a rounded quotient *)
Lemma trunc_scaled_quotient (n d u : Z) :
  0 < d -> 0 < u -> n * u / d / u = n / d.
Proof.
  intros Hd Hu. rewrite Z.div_div by lia. apply Z.div_mul_cancel_r; lia.
Qed.

Lemma trunc_scaled_quotient_up (n d u m : Z) :
  0 < d -> 0 < u -> 0 <= n < 2 ^ 53 ->
  m = n * u / d -> 2 ^ 52 <= m ->
  (2 * m + 1) * d <= 2 * (n * u) ->
  (m + 1) / u = n / d /\ 2 <= u.
Proof.
  intros Hd Hu Hn Hm Hlo Hup.
  pose proof (trunc_scaled_quotient n d u Hd Hu) as Ht. rewrite <- Hm in Ht.
  pose proof (Z.div_mod n d ltac:(lia)) as Hnd.
  pose proof (Z.mod_pos_bound n d Hd) as Hrho.
  pose proof (Z.div_mod m u ltac:(lia)) as Hmu.
  pose proof (Z.mod_pos_bound m u Hu) as Hsig.
  pose proof (Z.div_mod (n * u) d ltac:(lia)) as Hnu.
  pose proof (Z.mod_pos_bound (n * u) d Hd) as Hnur.
  rewrite <- Hm in Hnu. rewrite Ht in Hmu.
  set (t := n / d) in *. set (rho := n mod d) in *. set (sig := m mod u) in *.
  set (tau := (n * u) mod d) in *.
  assert (Ht0 : 0 <= t) by (apply Z.div_pos; lia).
  (* d < 2u, from the size of m *)
  assert (Hd2u : d < 2 * u).
  { assert (m * d <= n * u) by lia.
    assert (2 ^ 52 * d <= m * d) by (apply Z.mul_le_mono_nonneg_r; lia).
    assert (n * u <= (2 ^ 53 - 1) * u) by (apply Z.mul_le_mono_nonneg_r; lia).
    lia. }
  (* the remainder of m leaves room for one more *)
  assert (Hroom : sig + 1 < u).
  { destruct (Z_lt_le_dec (sig + 1) u) as [|Hge]; [assumption|]. exfalso.
    assert (Esig : sig = u - 1) by lia.
    assert (Em : m = u * (t + 1) - 1) by lia.
    assert (H1 : n * u <= (d * t + d - 1) * u) by (apply Z.mul_le_mono_nonneg_r; lia).
    rewrite Em in Hup.
    assert (H2 : (2 * (u * (t + 1) - 1) + 1) * d = 2 * (u * (d * t + d)) - d) by ring.
    assert (H3 : (d * t + d - 1) * u = u * (d * t + d) - u) by ring.
    lia. }
  split.
  - symmetry. apply Z.div_unique with (r := sig + 1); lia.
  - lia.
Qed.

Lemma shiftl_nonpos (m e : Z) : e <= 0 -> Z.shiftl m e = m / 2 ^ (- e).
Proof.
  intros He. rewrite <- Z.shiftr_div_pow2 by lia. rewrite <- Z.shiftr_opp_r.
  f_equal; lia.
Qed.

Lemma new_location_up (md r : Z) :
  0 < md -> 0 <= r < md -> loc_up (new_location md r) = true -> md <= 2 * r.
Proof.
  intros Hmd Hr. unfold new_location, new_location_even, new_location_odd.
  destruct (Z.even md); destruct (Z.eqb_spec r 0) as [|Hr0]; simpl; try discriminate.
  - destruct (Z.compare_spec (2 * r) md); simpl; try discriminate; lia.
  - destruct (Z.compare_spec (2 * r + 1) md); simpl; try discriminate; lia.
Qed.

Lemma SFdiv_core_binary_53 (mn en md ed : Z) :
  2 ^ 52 <= mn < 2 ^ 53 -> 2 ^ 52 <= md < 2 ^ 53 -> -1074 <= en - ed - 53 ->
  SFdiv_core_binary prec emax mn en md ed =
    (mn * 2 ^ 53 / md, en - ed - 53, new_location md ((mn * 2 ^ 53) mod md)).
Proof.
  intros Hmn Hmd He. unfold SFdiv_core_binary.
  rewrite (Zdigits2_bounds mn 53), (Zdigits2_bounds md 53) by (simpl; lia).
  rewrite fexp_normal by lia.
  replace (53 + en - (53 + ed) - 53) with (en - ed - 53) by lia.
  rewrite Z.min_l by lia.
  replace (en - ed - (en - ed - 53)) with 53 by lia.
  rewrite Z.shiftl_mul_pow2 by lia.
  unfold Z.div, Z.modulo. destruct (Z.div_eucl (mn * 2 ^ 53) md) as [q r]. reflexivity.
Qed.

Lemma SFdiv_canon (sn sd : bool) (n d : Z) :
  0 < n < 2 ^ 53 -> 0 < d < 2 ^ 53 ->
  exists mF eF,
    SFdiv prec emax (canon sn n) (canon sd d) = S754_finite (xorb sn sd) mF eF /\
    Z.shiftl (Z.pos mF) eF = n / d.
Proof.
  intros Hn Hd.
  destruct (canon_mantissa n Hn) as ([Hdn Hdn53] & Hmn).
  destruct (canon_mantissa d Hd) as ([Hdd Hdd53] & Hmd).
  unfold canon. cbn [SFdiv].
  set (dn := Zdigits2 n) in *. set (dd := Zdigits2 d) in *.
  set (i := 53 - dn) in *. set (j := 53 - dd) in *.
  rewrite !Z2Pos.id by lia.
  set (mn := n * 2 ^ i) in *. set (md := d * 2 ^ j) in *.
  rewrite SFdiv_core_binary_53 by lia.
  set (q := mn * 2 ^ 53 / md). set (r := (mn * 2 ^ 53) mod md).
  pose proof (Z.div_mod (mn * 2 ^ 53) md ltac:(lia)) as Hqr. fold q r in Hqr.
  pose proof (Z.mod_pos_bound (mn * 2 ^ 53) md ltac:(lia)) as Hr. fold r in Hr.
  assert (Hq : 2 ^ 52 <= q < 2 ^ 54).
  { unfold q. split.
    - apply Z.div_le_lower_bound; [lia|].
      assert (md * 2 ^ 52 <= 2 ^ 53 * 2 ^ 52) by (apply Z.mul_le_mono_nonneg_r; lia).
      assert (2 ^ 52 * 2 ^ 53 <= mn * 2 ^ 53) by (apply Z.mul_le_mono_nonneg_r; lia).
      lia.
    - apply Z.div_lt_upper_bound; [lia|].
      assert (mn * 2 ^ 53 < 2 ^ 53 * 2 ^ 53) by (apply Z.mul_lt_mono_pos_r; lia).
      assert (2 ^ 52 * 2 ^ 54 <= md * 2 ^ 54) by (apply Z.mul_le_mono_nonneg_r; lia).
      lia. }
  destruct (Zdigits2_range q ltac:(lia)) as [_ [Hqlo Hqhi]].
  set (k := Zdigits2 q - 53).
  assert (Hk : k = 0 \/ k = 1).
  { assert (53 <= Zdigits2 q).
    { destruct (Z_lt_le_dec (Zdigits2 q) 53) as [Hlt|]; [|assumption].
      assert (2 ^ Zdigits2 q <= 2 ^ 52) by (apply Z.pow_le_mono_r; lia). lia. }
    assert (Zdigits2 q <= 54).
    { destruct (Z_lt_le_dec 54 (Zdigits2 q)) as [Hgt|]; [|assumption].
      assert (2 ^ 54 <= 2 ^ (Zdigits2 q - 1)) by (apply Z.pow_le_mono_r; lia). lia. }
    unfold k. lia. }
  set (e' := dn - 53 - (dd - 53) - 53).
  set (u := 2 ^ (- (e' + k))).
  assert (Hexp : 0 <= - (e' + k)) by (unfold e'; lia).
  assert (Hu : 0 < u) by (apply Z.pow_pos_nonneg; lia).
  assert (Hpk : 0 < 2 ^ k) by (apply Z.pow_pos_nonneg; lia).
  assert (Hpi : 0 < 2 ^ i) by (apply Z.pow_pos_nonneg; lia).
  assert (Hpj : 0 < 2 ^ j) by (apply Z.pow_pos_nonneg; lia).
  assert (Hscale : u * (2 ^ j * 2 ^ k) = 2 ^ i * 2 ^ 53).
  { unfold u. rewrite <- !Z.pow_add_r by lia. f_equal. unfold e', i, j. lia. }
  assert (Hm' : q / 2 ^ k = n * u / d).
  { unfold q. rewrite Z.div_div by lia.
    replace (mn * 2 ^ 53) with (n * u * (2 ^ j * 2 ^ k))
      by (unfold mn; rewrite <- Z.mul_assoc, Hscale; ring).
    replace (md * 2 ^ k) with (d * (2 ^ j * 2 ^ k)) by (unfold md; ring).
    apply Z.div_mul_cancel_r; lia. }
  destruct (binary_round_aux_normal (xorb sn sd) q e' (new_location md r) k
              ltac:(lia) ltac:(unfold k; lia) ltac:(lia) ltac:(unfold e'; lia)
              ltac:(unfold e'; lia)) as (Hm'r & Hcases).
  rewrite Hm' in Hm'r, Hcases.
  (* when rounded up, at least half a unit was cut off *)
  assert (Hhalf : (if k =? 0 then loc_up (new_location md r) else Z.testbit q (k - 1)) = true ->
                  (2 * (n * u / d) + 1) * d <= 2 * (n * u)).
  { intros Hup. rewrite <- Hm'.
    apply Z.mul_le_mono_pos_r with (p := 2 ^ j * 2 ^ k); [lia|].
    replace (2 * (n * u) * (2 ^ j * 2 ^ k)) with (2 * (mn * 2 ^ 53))
      by (unfold mn; replace (2 * (n * u) * (2 ^ j * 2 ^ k)) with (2 * (n * (u * (2 ^ j * 2 ^ k)))) by ring;
          rewrite Hscale; ring).
    replace ((2 * (q / 2 ^ k) + 1) * d * (2 ^ j * 2 ^ k)) with ((2 * (q / 2 ^ k) + 1) * 2 ^ k * md)
      by (unfold md; ring).
    destruct Hk as [Hk0 | Hk1].
    - rewrite Hk0 in Hup |- *. change (0 =? 0) with true in Hup. cbv iota in Hup.
      apply new_location_up in Hup; [|lia|lia].
      change (2 ^ 0) with 1. rewrite Z.div_1_r, Hqr.
      replace ((2 * q + 1) * 1 * md) with (2 * (md * q) + md) by ring. lia.
    - rewrite Hk1 in Hup |- *. change (1 =? 0) with false in Hup. cbv iota in Hup.
      change (1 - 1) with 0 in Hup. rewrite Z.bit0_odd in Hup.
      change (2 ^ 1) with 2. pose proof (Z.div_mod q 2 ltac:(lia)) as Hq2.
      rewrite Zmod_odd, Hup in Hq2.
      replace (2 * (q / 2) + 1) with q by lia. rewrite Hqr.
      replace (q * 2 * md) with (2 * (md * q)) by ring. lia. }
  destruct Hcases as [H | [(Hup & Hlt & H) | (Hup & Heq & H)]].
  - exists (Z.to_pos (n * u / d)), (e' + k). split; [exact H|].
    rewrite Z2Pos.id, shiftl_nonpos by lia. fold u.
    apply trunc_scaled_quotient; lia.
  - exists (Z.to_pos (n * u / d + 1)), (e' + k). split; [exact H|].
    rewrite Z2Pos.id, shiftl_nonpos by lia. fold u.
    apply (trunc_scaled_quotient_up n d u (n * u / d)); try lia. apply Hhalf, Hup.
  - exists (Z.to_pos (2 ^ 52)), (e' + k + 1). split; [exact H|].
    destruct (trunc_scaled_quotient_up n d u (n * u / d)) as [Hdiv Hu2]; try lia.
    { apply Hhalf, Hup. }
    rewrite Heq in Hdiv. rewrite <- Hdiv.
    assert (He1 : e' + k + 1 <= 0).
    { destruct (Z_lt_le_dec 0 (e' + k + 1)) as [Hpos|]; [|assumption].
      assert (E0 : - (e' + k) = 0) by lia. unfold u in Hu2. rewrite E0 in Hu2. simpl in Hu2. lia. }
    rewrite shiftl_nonpos by lia.
    replace u with (2 * 2 ^ (- (e' + k + 1))).
    + change (2 ^ 53) with (2 * 2 ^ 52). rewrite Z.div_mul_cancel_l; [reflexivity| |lia].
      apply Z.pow_nonzero; lia.
    + unfold u. rewrite <- (Z.pow_1_r 2) at 1. rewrite <- Z.pow_add_r by lia. f_equal. lia.
Qed.

(** Division of whole-number floats, truncated. *)
Lemma int_of_float_div (x y : float) (sn sd : bool) (n d : Z) :
  0 < n < 2 ^ 53 -> 0 < d < 2 ^ 53 ->
  Prim2SF x = canon sn n -> Prim2SF y = canon sd d ->
  int_of_float (x / y) = Ok (cond_Zopp (xorb sn sd) (n / d)).
Proof.
  intros Hn Hd Hx Hy. unfold int_of_float. rewrite div_spec, Hx, Hy. unfold SF64div.
  destruct (SFdiv_canon sn sd n d Hn Hd) as (mF & eF & -> & <-). reflexivity.
Qed.

Lemma Z2F_mul (s h : Z) :
  s <> 0 -> 0 < h -> Z.abs s * h < 2 ^ 53 ->
  Prim2SF (Z2F s * Z2F h) = canon (s <? 0) (Z.abs s * h).
Proof.
  intros Hs Hh Hb.
  assert (Z.abs s < 2 ^ 53) by nia. assert (h < 2 ^ 53) by nia.
  rewrite mul_spec, !Prim2SF_Z2F by lia. unfold SF64mul.
  replace (h <? 0) with false by (symmetry; apply Z.ltb_ge; lia).
  rewrite (Z.abs_eq h) by lia. rewrite SFmul_canon by lia.
  rewrite xorb_false_r. reflexivity.
Qed.

Lemma cond_Zopp_quot (s n d : Z) :
  0 <= n -> 0 < d -> cond_Zopp (s <? 0) (Z.abs s * n / d) = Z.quot (s * n) d.
Proof.
  intros Hn Hd. destruct (Z.ltb_spec s 0) as [Hneg|Hpos]; simpl.
  - rewrite Z.abs_neq by lia. replace (s * n) with (- (- s * n)) by ring.
    rewrite Z.quot_opp_l by lia. f_equal. symmetry. apply Z.quot_div_nonneg; nia.
  - rewrite Z.abs_eq by lia. symmetry. apply Z.quot_div_nonneg; nia.
Qed.

Lemma scaled_size_whole (file_path : string) (s W H : Z) :
  s <> 0 -> 0 < W -> 0 < H -> Z.abs s * Z.max W H < 2 ^ 53 ->
  scaled_size file_path (PyInt s) (Z2F W) (Z2F H) = Ok (short_side_spec s W H).
Proof.
  intros Hs HW HH Hb.
  assert (HbW : Z.abs s * W < 2 ^ 53) by nia.
  assert (HbH : Z.abs s * H < 2 ^ 53) by nia.
  assert (Hs53 : Z.abs s < 2 ^ 53) by nia.
  assert (HW53 : W < 2 ^ 53) by nia.
  assert (HH53 : H < 2 ^ 53) by nia.
  assert (HsW : 0 < Z.abs s * W) by nia.
  assert (HsH : 0 < Z.abs s * H) by nia.
  unfold scaled_size, short_side_spec.
  rewrite !Z2F_nonzero by lia. cbn [orb].
  rewrite Z2F_ltb by lia.
  unfold py_mul_float, py_truediv. rewrite float_of_int_small by lia.
  rewrite !Z2F_nonzero by lia.
  assert (PW : Prim2SF (Z2F W) = canon false W).
  { rewrite Prim2SF_Z2F, Z.abs_eq by lia.
    replace (W <? 0) with false by (symmetry; apply Z.ltb_ge; lia). reflexivity. }
  assert (PH : Prim2SF (Z2F H) = canon false H).
  { rewrite Prim2SF_Z2F, Z.abs_eq by lia.
    replace (H <? 0) with false by (symmetry; apply Z.ltb_ge; lia). reflexivity. }
  destruct (W <? H); cbn [py_int].
  - rewrite (int_of_float_div _ _ (s <? 0) false (Z.abs s * H) W);
      [| lia | lia | apply Z2F_mul; lia | exact PW].
    rewrite xorb_false_r, cond_Zopp_quot by lia.
    rewrite (Z.mul_comm s H). reflexivity.
  - rewrite (int_of_float_div _ _ (s <? 0) false (Z.abs s * W) H);
      [| lia | lia | apply Z2F_mul; lia | exact PH].
    rewrite xorb_false_r, cond_Zopp_quot by lia.
    rewrite (Z.mul_comm s W). reflexivity.
Qed.

(** ** The display name *)

Lemma split_slash_nonempty (s : string) : split_slash s ≠ [].
Proof.
  destruct s as [|c s]; simpl; [discriminate|].
  destruct (Ascii.eqb c "/"); [discriminate|].
  destruct (split_slash s); discriminate.
Qed.

Lemma split_slash_no_slash (s : string) :
  has_slash s = false -> split_slash s = [s].
Proof.
  induction s as [|c s IH]; simpl; [reflexivity|].
  destruct (Ascii.eqb c "/"); simpl; [discriminate|].
  intros H. rewrite (IH H). reflexivity.
Qed.

Lemma split_slash_app (a b : string) :
  split_slash (a +:+ String "/" b) = split_slash a ++ split_slash b.
Proof.
  induction a as [|c a IH]; simpl.
  - reflexivity.
  - destruct (Ascii.eqb c "/"); simpl.
    + rewrite IH. reflexivity.
    + rewrite IH. pose proof (split_slash_nonempty a) as Hne.
      destruct (split_slash a) as [|x xs]; [contradiction|reflexivity].
Qed.

Lemma split_slash_pieces (s : string) :
  Forall (fun x => has_slash x = false) (split_slash s).
Proof.
  induction s as [|c s IH]; simpl.
  - constructor; [reflexivity|constructor].
  - destruct (Ascii.eqb c "/") eqn:E.
    + constructor; [reflexivity|exact IH].
    + destruct (split_slash s) as [|x xs]; [repeat constructor; simpl; rewrite E; reflexivity|].
      inversion IH; subst. constructor; [simpl; rewrite E; assumption|assumption].
Qed.

Lemma Path_name_no_slash (p : string) : has_slash (Path_name p) = false.
Proof.
  unfold Path_name. destruct (last (path_tail p)) as [x|] eqn:E; [|reflexivity].
  simpl. apply last_Some_elem_of in E. unfold path_tail in E.
  apply list_elem_of_filter in E as [_ E].
  pose proof (split_slash_pieces p) as H. rewrite Forall_forall in H.
  apply H. exact E.
Qed.

Lemma Path_name_segment (base : string) :
  file_segment base -> Path_name base = base.
Proof.
  intros (Hne & Hdot & Hs). unfold Path_name, path_tail.
  rewrite (split_slash_no_slash _ Hs). rewrite filter_cons_True by (split; assumption).
  reflexivity.
Qed.

Lemma Path_name_dir_segment (dir base : string) :
  file_segment base -> Path_name (dir +:+ String "/" base) = base.
Proof.
  intros (Hne & Hdot & Hs). unfold Path_name, path_tail.
  rewrite split_slash_app, filter_app, (split_slash_no_slash _ Hs).
  rewrite (filter_cons_True _ base) by (split; assumption).
  rewrite filter_nil, last_snoc. reflexivity.
Qed.

Lemma Path_name_trailing_slash (p : string) : Path_name (p +:+ "/") = Path_name p.
Proof.
  unfold Path_name, path_tail. rewrite split_slash_app, filter_app. simpl split_slash.
  rewrite filter_cons_False by (intros [H _]; apply H; reflexivity).
  rewrite filter_nil, app_nil_r. reflexivity.
Qed.

Lemma Path_name_trailing_dot (p : string) : Path_name (p +:+ "/.") = Path_name p.
Proof.
  unfold Path_name, path_tail. rewrite split_slash_app, filter_app.
  rewrite (split_slash_no_slash ".") by reflexivity.
  rewrite filter_cons_False by (intros [_ H]; apply H; reflexivity).
  rewrite filter_nil, app_nil_r. reflexivity.
Qed.

Lemma final_segment_of_name (p n : string) :
  final_segment_of p n -> n = Path_name p.
Proof.
  induction 1 as [base Hb | dir base Hb | p n _ IH | p n _ IH | |].
  - symmetry. apply Path_name_segment, Hb.
  - symmetry. apply Path_name_dir_segment, Hb.
  - rewrite Path_name_trailing_slash. exact IH.
  - rewrite Path_name_trailing_dot. exact IH.
  - reflexivity.
  - reflexivity.
Qed.

Lemma string_app_assoc (a b c : string) : (a +:+ b) +:+ c = a +:+ (b +:+ c).
Proof.
  induction a as [|x a IH]; [reflexivity|].
  change (String x ((a +:+ b) +:+ c) = String x (a +:+ (b +:+ c))). f_equal. exact IH.
Qed.

Lemma join_split_slash (p : string) : join_slash (split_slash p) = p.
Proof.
  induction p as [|c p IH]; [reflexivity|]. simpl split_slash.
  pose proof (split_slash_nonempty p) as Hne.
  destruct (Ascii.eqb_spec c "/") as [->|Hc].
  - destruct (split_slash p) as [|x xs]; [contradiction|].
    change (join_slash (EmptyString :: x :: xs))
      with (EmptyString +:+ String "/" (join_slash (x :: xs))).
    rewrite IH. reflexivity.
  - destruct (split_slash p) as [|x xs]; [contradiction|].
    rewrite <- IH. destruct xs; reflexivity.
Qed.

Lemma join_slash_snoc (l : list string) (x : string) :
  l ≠ [] -> join_slash (l ++ [x]) = join_slash l +:+ String "/" x.
Proof.
  induction l as [|y l IH]; [contradiction|]. intros _.
  destruct l as [|z l]; [reflexivity|].
  change (join_slash ((y :: z :: l) ++ [x]))
    with (y +:+ String "/" (join_slash ((z :: l) ++ [x]))).
  rewrite IH by discriminate.
  change (join_slash (y :: z :: l)) with (y +:+ String "/" (join_slash (z :: l))).
  rewrite string_app_assoc. reflexivity.
Qed.

Lemma final_segment_of_join (l : list string) :
  l ≠ [] -> Forall (fun x => has_slash x = false) l ->
  final_segment_of (join_slash l) (Path_name (join_slash l)).
Proof.
  induction l as [|x l IH] using rev_ind; [contradiction|].
  intros _ Hall. apply Forall_app in Hall as [Hl Hx].
  apply Forall_cons in Hx as [Hx _].
  destruct l as [|y l].
  - simpl. destruct (string_dec x EmptyString) as [->|Hne]; [apply final_empty|].
    destruct (string_dec x ".") as [->|Hdot]; [apply final_dot|].
    rewrite Path_name_segment by (repeat split; assumption).
    apply final_alone. repeat split; assumption.
  - rewrite join_slash_snoc by discriminate.
    specialize (IH ltac:(discriminate) Hl).
    destruct (string_dec x EmptyString) as [->|Hne].
    { rewrite Path_name_trailing_slash. apply final_trailing_slash, IH. }
    destruct (string_dec x ".") as [->|Hdot].
    { rewrite Path_name_trailing_dot. apply final_trailing_dot, IH. }
    rewrite Path_name_dir_segment by (repeat split; assumption).
    apply final_after_dir. repeat split; assumption.
Qed.

Lemma final_segment_of_Path_name (p : string) : final_segment_of p (Path_name p).
Proof.
  rewrite <- (join_split_slash p) at 1 2.
  apply final_segment_of_join; [apply split_slash_nonempty|apply split_slash_pieces].
Qed.

Lemma from_path_Ok_name file_path dv da decoder (other_args : gmap string pyval) w v :
  outcome (from_path file_path dv da decoder other_args w) = Ok v ->
  video_name v = Path_name file_path.
Proof.
  destruct (pathmgr_contents w file_path) as [b|] eqn:Hb.
  - destruct (py_truthy (popped_scale other_args)) eqn:Hs.
    + rewrite (from_path_scaled _ _ _ _ _ _ b Hb Hs).
      destruct (scaled_size _ _ _ _) as [[wi hi]|e]; [|discriminate].
      destruct (select_and_construct _ _ _ _ _ _ _) as [t r] eqn:E. unfold outcome. simpl.
      intros ->. apply select_and_construct_inv in E as (d & _ & _ & ->). reflexivity.
    + rewrite (from_path_unscaled _ _ _ _ _ _ b Hb Hs).
      destruct (select_and_construct _ _ _ _ _ _ _) as [t r] eqn:E. unfold outcome. simpl.
      intros ->. apply select_and_construct_inv in E as (d & _ & _ & ->). reflexivity.
  - rewrite from_path_open_fails by assumption. discriminate.
Qed.

(** The model of [.name] on a few shapes of path. *)
Example Path_name_examples :
  Path_name "/data/videos/clip.mp4" = "clip.mp4" ∧
  Path_name "s3://bucket/videos/clip.mp4" = "clip.mp4" ∧
  Path_name "clip.mp4" = "clip.mp4" ∧
  Path_name "videos/clips/" = "clips" ∧
  Path_name "videos/." = "videos" ∧
  Path_name "/" = EmptyString.
Proof. repeat split; reflexivity. Qed.

(** Lines 78-85 on a few sizes, in double precision. *)
Example scaled_size_examples :
  scaled_size "clip.mp4" (PyInt 320) 1920 1080 = Ok (568, 320) ∧
  scaled_size "clip.mp4" (PyInt 320) 1080 1920 = Ok (320, 568) ∧
  scaled_size "clip.mp4" (PyInt 256) 640 640 = Ok (256, 256) ∧
  scaled_size "clip.mp4" (PyInt 320) 0 1080 = Raise (ValueError_invalid_video "clip.mp4") ∧
  scaled_size "clip.mp4" (PyInt 320) infinity 1080 = Raise OverflowError.
Proof. repeat split; vm_compute; reflexivity. Qed.

(** ** Claims about the selector *)

(** C7: each of the three tokens "pyav", "torchvision", "decord" selects its
    own backend class (EncodedVideoPyAV, EncodedVideoTorchVision,
    EncodedVideoDecord), and no two tokens select the same class. *)
Theorem select_video_class_tokens (w : world) :
  outcome (select_video_class "pyav" w) = Ok EncodedVideoPyAV ∧
  outcome (select_video_class "torchvision" w) = Ok EncodedVideoTorchVision ∧
  outcome (select_video_class "decord" w) = Ok EncodedVideoDecord ∧
  outcome (select_video_class "pyav" w) ≠ outcome (select_video_class "torchvision" w) ∧
  outcome (select_video_class "pyav" w) ≠ outcome (select_video_class "decord" w) ∧
  outcome (select_video_class "torchvision" w) ≠ outcome (select_video_class "decord" w).
Proof.
  rewrite (select_video_class_Ok "pyav" PYAV) by reflexivity.
  rewrite (select_video_class_Ok "torchvision" TORCHVISION) by reflexivity.
  rewrite (select_video_class_Ok "decord" DECORD) by reflexivity.
  unfold outcome. simpl. repeat split; discriminate.
Qed.

(** C9: for a token outside the enumeration, select_video_class raises the
    error of the conversion DecoderType(decoder) made by its first
    condition, before anything else happens; and for no input at all does it
    raise the NotImplementedError of its final else. *)
Theorem select_video_class_else_unreachable (decoder : string) (w : world) :
  ~ supported_token decoder ->
  DecoderType_call decoder = Raise (ValueError_not_a_DecoderType decoder) ∧
  select_video_class decoder w = ([], Raise (ValueError_not_a_DecoderType decoder)) ∧
  (forall decoder' w' token,
     outcome (select_video_class decoder' w') ≠ Raise (NotImplementedError_unknown_decoder token)).
Proof.
  intros Hn. split; [|split].
  - apply DecoderType_call_Raise, Hn.
  - apply select_video_class_Raise, Hn.
  - intros decoder' w' token. run_monad.
    destruct (DecoderType_call decoder') as [d|e] eqn:Hd.
    + destruct d; simpl; discriminate.
    + unfold DecoderType_call in Hd.
      destruct (List.find _ _); inversion Hd; subst. simpl. discriminate.
Qed.

Lemma select_video_class_else_unreachable_witness :
  ~ supported_token "ffmpeg" ∧
  select_video_class "ffmpeg" (demo_world "clip.mp4" 0 0) =
    ([], Raise (ValueError_not_a_DecoderType "ffmpeg")).
Proof.
  assert (H : ~ supported_token "ffmpeg")
    by (intros [H | [H | H]]; discriminate).
  split; [exact H|].
  exact (proj1 (proj2 (select_video_class_else_unreachable "ffmpeg" (demo_world "clip.mp4" 0 0) H))).
Defined.

(** ** Claims about the loader *)

(** C1, as stated, fails: with the unsupported token "ffmpeg" the loader has
    opened, read and closed the file before the error is raised. *)
Lemma from_path_unsupported_after_io :
  ~ supported_token "ffmpeg" ∧
  from_path "/data/clip.mp4" true true "ffmpeg" ∅ (demo_world "/data/clip.mp4" 1920 1080) =
    ([EvOpen "/data/clip.mp4"; EvRead "/data/clip.mp4"; EvClose "/data/clip.mp4"],
     Raise (ValueError_not_a_DecoderType "ffmpeg")) ∧
  existsb is_file_io
    (trace (from_path "/data/clip.mp4" true true "ffmpeg" ∅
              (demo_world "/data/clip.mp4" 1920 1080))) = true.
Proof.
  split; [intros [H | [H | H]]; discriminate|].
  split; vm_compute; reflexivity.
Qed.

(** C1, amended: for a token outside the enumeration the loader never
    returns a video, but it fails only after file input: the first thing it
    does is open the file; and when the read succeeds and scaling is either
    not requested or succeeds, it fails with the error for the unsupported
    token, after the read (and the probe, if scaling was requested), without
    importing a backend. *)
Theorem from_path_unsupported_token file_path dv da decoder
    (other_args : gmap string pyval) (w : world) :
  ~ supported_token decoder ->
  (exists e, outcome (from_path file_path dv da decoder other_args w) = Raise e) ∧
  (exists t, trace (from_path file_path dv da decoder other_args w) = EvOpen file_path :: t) ∧
  (forall b, pathmgr_contents w file_path = Some b ->
     (py_truthy (popped_scale other_args) = false ∨
      exists wh, scaled_size file_path (popped_scale other_args)
                   (capture_get w file_path CAP_PROP_FRAME_WIDTH)
                   (capture_get w file_path CAP_PROP_FRAME_HEIGHT) = Ok wh) ->
     from_path file_path dv da decoder other_args w =
       (read_events file_path ++
          (if py_truthy (popped_scale other_args) then probe_events file_path else []),
        Raise (ValueError_not_a_DecoderType decoder))).
Proof.
  intros Hn.
  destruct (pathmgr_contents w file_path) as [b|] eqn:Hb.
  - destruct (py_truthy (popped_scale other_args)) eqn:Hs.
    + rewrite (from_path_scaled _ _ _ _ _ _ b Hb Hs).
      destruct (scaled_size _ _ _ _) as [[wi hi]|e].
      * rewrite select_and_construct_unsupported by assumption.
        split; [|split]; [eexists; reflexivity ..|].
        intros b' _ _. rewrite app_nil_r. reflexivity.
      * split; [|split]; [eexists; reflexivity ..|].
        intros b' _ [?|[wh ?]]; discriminate.
    + rewrite (from_path_unscaled _ _ _ _ _ _ b Hb Hs).
      rewrite select_and_construct_unsupported by assumption.
      split; [|split]; [eexists; reflexivity ..|].
      intros b' _ _. reflexivity.
  - rewrite from_path_open_fails by assumption.
    split; [|split]; [eexists; reflexivity ..|].
    intros b' ?; discriminate.
Qed.

Lemma from_path_unsupported_token_witness :
  from_path "/data/clip.mp4" true true "ffmpeg" {["short_side_scale" := PyInt 320]}
    (demo_world "/data/clip.mp4" 1920 1080) =
  (read_events "/data/clip.mp4" ++ probe_events "/data/clip.mp4",
   Raise (ValueError_not_a_DecoderType "ffmpeg")).
Proof.
  assert (Hn : ~ supported_token "ffmpeg") by (intros [H | [H | H]]; discriminate).
  refine (proj2 (proj2 (from_path_unsupported_token "/data/clip.mp4" true true "ffmpeg"
            {["short_side_scale" := PyInt 320]}
            (demo_world "/data/clip.mp4" 1920 1080) Hn)) [] eq_refl _).
  right. exists (568, 320). vm_compute. reflexivity.
Defined.

(** C2, as stated, fails: a 1920x1080 source with short side 320 is not
    given 320x180 (the constructor receives width 568 and height 320), and a
    1080x1920 source is not given 180x320 (it receives 320 and 568). *)
Lemma from_path_scale_320_not_180 :
  forwarded_size (from_path "/data/clip.mp4" true true "pyav"
                    {["short_side_scale" := PyInt 320]}
                    (demo_world "/data/clip.mp4" 1920 1080))
    ≠ Some (Some (PyInt 320), Some (PyInt 180)) ∧
  forwarded_size (from_path "/data/clip.mp4" true true "pyav"
                    {["short_side_scale" := PyInt 320]}
                    (demo_world "/data/clip.mp4" 1080 1920))
    ≠ Some (Some (PyInt 180), Some (PyInt 320)).
Proof.
  split; vm_compute; intros H; discriminate H.
Qed.

(** C2, amended: for a source probed as width 1920, height 1080 and a short
    side scale of 320 the loader forwards width 568 and height 320; for
    width 1080, height 1920 it forwards width 320 and height 568. *)
Theorem from_path_scale_320 file_path dv da decoder (other_args : gmap string pyval)
    (w : world) (b : list Byte.byte) :
  pathmgr_contents w file_path = Some b ->
  other_args !! "short_side_scale" = Some (PyInt 320) ->
  supported_token decoder ->
  no_keyword_clash other_args ->
  (capture_get w file_path CAP_PROP_FRAME_WIDTH = 1920%float ->
   capture_get w file_path CAP_PROP_FRAME_HEIGHT = 1080%float ->
   forwarded_size (from_path file_path dv da decoder other_args w)
     = Some (Some (PyInt 568), Some (PyInt 320))) ∧
  (capture_get w file_path CAP_PROP_FRAME_WIDTH = 1080%float ->
   capture_get w file_path CAP_PROP_FRAME_HEIGHT = 1920%float ->
   forwarded_size (from_path file_path dv da decoder other_args w)
     = Some (Some (PyInt 320), Some (PyInt 568))).
Proof.
  intros Hb Hs Hd Hc. destruct (DecoderType_call_supported _ Hd) as [d Hd'].
  assert (Hp : popped_scale other_args = PyInt 320) by (unfold popped_scale; rewrite Hs; reflexivity).
  split; intros Hw Hh.
  - rewrite (from_path_scale_total _ _ _ _ _ _ b d 568 320); try assumption.
    + unfold forwarded_size, outcome. simpl.
      rewrite lookup_insert_ne by discriminate. rewrite !lookup_insert_eq. reflexivity.
    + rewrite Hp. reflexivity.
    + rewrite Hp, Hw, Hh. vm_compute. reflexivity.
  - rewrite (from_path_scale_total _ _ _ _ _ _ b d 320 568); try assumption.
    + unfold forwarded_size, outcome. simpl.
      rewrite lookup_insert_ne by discriminate. rewrite !lookup_insert_eq. reflexivity.
    + rewrite Hp. reflexivity.
    + rewrite Hp, Hw, Hh. vm_compute. reflexivity.
Qed.

Lemma from_path_scale_320_witness :
  forwarded_size (from_path "/data/clip.mp4" true true "decord"
                    {["short_side_scale" := PyInt 320; "width" := PyInt 7]}
                    (demo_world "/data/clip.mp4" 1920 1080))
    = Some (Some (PyInt 568), Some (PyInt 320)).
Proof.
  refine (proj1 (from_path_scale_320 "/data/clip.mp4" true true "decord"
            {["short_side_scale" := PyInt 320; "width" := PyInt 7]}
            (demo_world "/data/clip.mp4" 1920 1080) [] eq_refl _ _ _) eq_refl eq_refl).
  - vm_compute. reflexivity.
  - right. right. reflexivity.
  - solve_no_clash.
Defined.

(** C3, as stated, fails: a probed width of -1 is non-positive, yet no
    invalid-source error is raised; the scaling is carried out and a video is
    constructed. *)
Lemma from_path_negative_width_accepted :
  (capture_get (demo_world "/data/clip.mp4" (-1) 1080) "/data/clip.mp4" CAP_PROP_FRAME_WIDTH
     <=? 0)%float = true ∧
  from_path "/data/clip.mp4" true true "pyav" {["short_side_scale" := PyInt 320]}
    (demo_world "/data/clip.mp4" (-1) 1080) =
  (read_events "/data/clip.mp4" ++ probe_events "/data/clip.mp4" ++ [EvImport EncodedVideoPyAV],
   Ok (Video EncodedVideoPyAV [] "clip.mp4" true true
         (<["height" := PyInt (-345600)]> (<["width" := PyInt 320]> ∅)))).
Proof.
  split; [reflexivity|].
  rewrite (from_path_scale_total _ _ _ _ _ _ [] PYAV 320 (-345600)); try reflexivity.
  solve_no_clash.
Qed.

(** C3, amended: when the file has been read and a truthy short side scale
    is given, the loader fails with the invalid-source error whenever a
    probed dimension equals zero; the error comes right after the probe,
    nothing is scaled, selected or constructed. *)
Theorem from_path_zero_dimension file_path dv da decoder (other_args : gmap string pyval)
    (w : world) (b : list Byte.byte) :
  pathmgr_contents w file_path = Some b ->
  py_truthy (popped_scale other_args) = true ->
  (capture_get w file_path CAP_PROP_FRAME_WIDTH =? 0)%float = true ∨
  (capture_get w file_path CAP_PROP_FRAME_HEIGHT =? 0)%float = true ->
  from_path file_path dv da decoder other_args w =
    (read_events file_path ++ probe_events file_path,
     Raise (ValueError_invalid_video file_path)).
Proof.
  intros Hb Hs Hz. rewrite (from_path_scaled _ _ _ _ _ _ b Hb Hs).
  unfold scaled_size.
  replace ((capture_get w file_path CAP_PROP_FRAME_WIDTH =? 0)%float
           || (capture_get w file_path CAP_PROP_FRAME_HEIGHT =? 0)%float) with true.
  - reflexivity.
  - symmetry. apply orb_true_iff. exact Hz.
Qed.

Lemma from_path_zero_dimension_witness :
  from_path "/data/clip.mp4" true true "pyav" {["short_side_scale" := PyInt 320]}
    (demo_world "/data/clip.mp4" 1920 0) =
  (read_events "/data/clip.mp4" ++ probe_events "/data/clip.mp4",
   Raise (ValueError_invalid_video "/data/clip.mp4")).
Proof.
  apply (from_path_zero_dimension "/data/clip.mp4" true true "pyav"
           {["short_side_scale" := PyInt 320]} (demo_world "/data/clip.mp4" 1920 0) []).
  - reflexivity.
  - reflexivity.
  - right. reflexivity.
Defined.

(** C4, as stated, fails for lack of a bound. For a source probed as
    3 x 18014398509481982 (both positive) and target 1, the forwarded height
    is 6004799503160661, while the native height scaled by 1/3 and rounded
    toward zero is 6004799503160660: the double-precision quotient was
    rounded to nearest before [int] truncated it. And for a source probed as
    1 x 2^1023 with target 4 no size is computed at all: the product
    overflows to infinity and [int] raises. *)
Lemma from_path_short_side_unbounded :
  (0 <? 3)%float = true ∧ (0 <? 18014398509481982)%float = true ∧
  Z2F 3 = 3%float ∧ Z2F 18014398509481982 = 18014398509481982%float ∧
  short_side_spec 1 3 18014398509481982 = (1, 6004799503160660) ∧
  forwarded_size (from_path "/data/clip.mp4" true true "pyav"
                    {["short_side_scale" := PyInt 1]}
                    (demo_world "/data/clip.mp4" 3 18014398509481982))
    = Some (Some (PyInt 1), Some (PyInt 6004799503160661)) ∧
  forwarded_size (from_path "/data/clip.mp4" true true "pyav"
                    {["short_side_scale" := PyInt 1]}
                    (demo_world "/data/clip.mp4" 3 18014398509481982))
    ≠ Some (Some (PyInt (fst (short_side_spec 1 3 18014398509481982))),
            Some (PyInt (snd (short_side_spec 1 3 18014398509481982)))) ∧
  (0 <? 1)%float = true ∧ (0 <? Z2F (2 ^ 1023))%float = true ∧
  outcome (from_path "/data/clip.mp4" true true "pyav"
             {["short_side_scale" := PyInt 4]}
             (demo_world "/data/clip.mp4" 1 (Z2F (2 ^ 1023))))
    = Raise OverflowError.
Proof.
  repeat split; try (vm_compute; reflexivity).
  vm_compute. intros H. discriminate H.
Qed.

(** C4, amended: for every source whose probed width and height are positive
    whole numbers, and every nonzero integer target whose product with the
    longer side stays below 2^53, the forwarded size preserves the aspect
    ratio: the shorter native side gets exactly the target, the other side
    is the native length scaled by target/shorter and rounded toward zero,
    and when width equals height, height is treated as the shorter side. *)
Theorem from_path_short_side file_path dv da decoder (other_args : gmap string pyval)
    (w : world) (b : list Byte.byte) (s W H : Z) :
  pathmgr_contents w file_path = Some b ->
  other_args !! "short_side_scale" = Some (PyInt s) ->
  s <> 0 ->
  capture_get w file_path CAP_PROP_FRAME_WIDTH = Z2F W ->
  capture_get w file_path CAP_PROP_FRAME_HEIGHT = Z2F H ->
  0 < W -> 0 < H ->
  Z.abs s * Z.max W H < 2 ^ 53 ->
  supported_token decoder ->
  no_keyword_clash other_args ->
  forwarded_size (from_path file_path dv da decoder other_args w) =
    Some (Some (PyInt (fst (short_side_spec s W H))),
          Some (PyInt (snd (short_side_spec s W H)))) ∧
  (W < H -> short_side_spec s W H = (s, Z.quot (H * s) W)) ∧
  (H < W -> short_side_spec s W H = (Z.quot (W * s) H, s)) ∧
  (W = H -> short_side_spec s W H = (Z.quot (W * s) H, s) ∧ Z.quot (W * s) H = s).
Proof.
  intros Hb Hsome Hs Hw Hh HW HH Hbound Hd Hc.
  destruct (DecoderType_call_supported _ Hd) as [d Hd'].
  assert (Hp : popped_scale other_args = PyInt s)
    by (unfold popped_scale; rewrite Hsome; reflexivity).
  split; [|split; [|split]].
  - rewrite (from_path_scale_total _ _ _ _ _ _ b d
               (fst (short_side_spec s W H)) (snd (short_side_spec s W H)));
      try assumption.
    + unfold forwarded_size, outcome. simpl.
      rewrite lookup_insert_ne by discriminate. rewrite !lookup_insert_eq. reflexivity.
    + rewrite Hp. simpl. apply negb_true_iff, Z.eqb_neq, Hs.
    + rewrite Hp, Hw, Hh, scaled_size_whole by assumption.
      destruct (short_side_spec s W H). reflexivity.
  - intros Hlt. unfold short_side_spec.
    replace (W <? H) with true by (symmetry; apply Z.ltb_lt; lia). reflexivity.
  - intros Hlt. unfold short_side_spec.
    replace (W <? H) with false by (symmetry; apply Z.ltb_ge; lia). reflexivity.
  - intros ->. unfold short_side_spec. rewrite Z.ltb_irrefl.
    split; [reflexivity|]. rewrite Z.mul_comm. apply Z.quot_mul. lia.
Qed.

Lemma from_path_short_side_witness :
  forwarded_size (from_path "/data/clip.mp4" true true "pyav"
                    {["short_side_scale" := PyInt 256; "height" := PyInt 1]}
                    (demo_world "/data/clip.mp4" 640 480))
    = Some (Some (PyInt 341), Some (PyInt 256)).
Proof.
  refine (proj1 (from_path_short_side "/data/clip.mp4" true true "pyav"
            {["short_side_scale" := PyInt 256; "height" := PyInt 1]}
            (demo_world "/data/clip.mp4" 640 480) [] 256 640 480
            eq_refl _ _ _ _ _ _ _ _ _)).
  - vm_compute. reflexivity.
  - lia.
  - vm_compute. reflexivity.
  - vm_compute. reflexivity.
  - lia.
  - lia.
  - vm_compute. reflexivity.
  - left. reflexivity.
  - solve_no_clash.
Defined.

(** C5: when short side scaling is requested and the loader succeeds, the
    computed width and height reach the constructor under "width" and
    "height", whatever the caller had put there; the scale option itself is
    consumed, and every other option of the caller is forwarded unchanged.
    And the loader does succeed when the file is readable, the size
    computation goes through, the token is supported and no option repeats
    an explicit keyword. *)
Theorem from_path_injects_size file_path dv da decoder (other_args : gmap string pyval)
    (w : world) :
  py_truthy (popped_scale other_args) = true ->
  (forall v, outcome (from_path file_path dv da decoder other_args w) = Ok v ->
     exists wi hi,
       scaled_size file_path (popped_scale other_args)
         (capture_get w file_path CAP_PROP_FRAME_WIDTH)
         (capture_get w file_path CAP_PROP_FRAME_HEIGHT) = Ok (wi, hi) ∧
       kwargs v !! "width" = Some (PyInt wi) ∧
       kwargs v !! "height" = Some (PyInt hi) ∧
       kwargs v !! "short_side_scale" = None ∧
       (forall k : string, k ≠ "width" -> k ≠ "height" -> k ≠ "short_side_scale" ->
          kwargs v !! k = other_args !! k)) ∧
  (forall b wi hi,
     pathmgr_contents w file_path = Some b ->
     scaled_size file_path (popped_scale other_args)
       (capture_get w file_path CAP_PROP_FRAME_WIDTH)
       (capture_get w file_path CAP_PROP_FRAME_HEIGHT) = Ok (wi, hi) ->
     supported_token decoder ->
     no_keyword_clash other_args ->
     exists v, outcome (from_path file_path dv da decoder other_args w) = Ok v).
Proof.
  intros Hs. split.
  - intros v Hv. destruct (from_path_scale_Ok _ _ _ _ _ _ _ Hs Hv) as (wi & hi & Hsz & ->).
    exists wi, hi. split; [exact Hsz|]. split; [|split; [|split]].
    + rewrite lookup_insert_ne by discriminate. apply lookup_insert_eq.
    + apply lookup_insert_eq.
    + repeat rewrite lookup_insert_ne by discriminate. apply lookup_delete_eq.
    + intros k Hw Hh Hk. repeat rewrite lookup_insert_ne by congruence.
      apply lookup_delete_ne. congruence.
  - intros b wi hi Hb Hsz Hd Hc. destruct (DecoderType_call_supported _ Hd) as [d Hd'].
    rewrite (from_path_scale_total _ _ _ _ _ _ b d wi hi Hs Hb Hsz Hd' Hc).
    eexists. reflexivity.
Qed.

Lemma from_path_injects_size_witness :
  exists v,
    outcome (from_path "/data/clip.mp4" true true "pyav" demo_args
               (demo_world "/data/clip.mp4" 1920 1080)) = Ok v ∧
    demo_args !! "width" = Some (PyInt 7) ∧
    kwargs v !! "width" = Some (PyInt 568) ∧
    kwargs v !! "height" = Some (PyInt 320) ∧
    kwargs v !! "perform_seek" = Some (PyBool true).
Proof.
  destruct (from_path_injects_size "/data/clip.mp4" true true "pyav" demo_args
              (demo_world "/data/clip.mp4" 1920 1080) eq_refl) as [Hpost Htotal].
  destruct (Htotal [] 568 320 eq_refl) as [v Hv].
  - vm_compute. reflexivity.
  - left. reflexivity.
  - solve_no_clash.
  - exists v. split; [exact Hv|]. split; [vm_compute; reflexivity|].
    destruct (Hpost v Hv) as (wi & hi & Hsz & Hw & Hh & _ & Hk).
    vm_compute in Hsz. inversion Hsz; subst wi hi.
    split; [exact Hw|]. split; [exact Hh|].
    rewrite Hk by discriminate. vm_compute. reflexivity.
Defined.

(** C6: when no short_side_scale option is supplied, the loader never probes
    the dimensions, and the options reach the constructor exactly as the
    caller gave them; with a readable file, a supported token and no option
    repeating a keyword, the call does succeed. *)
Theorem from_path_without_scale file_path dv da decoder (other_args : gmap string pyval)
    (w : world) :
  other_args !! "short_side_scale" = None ->
  forallb (fun ev => negb (is_probe ev))
    (trace (from_path file_path dv da decoder other_args w)) = true ∧
  (forall v, outcome (from_path file_path dv da decoder other_args w) = Ok v ->
     kwargs v = other_args) ∧
  (forall b, pathmgr_contents w file_path = Some b ->
     supported_token decoder ->
     no_keyword_clash other_args ->
     exists cls,
       outcome (from_path file_path dv da decoder other_args w) =
         Ok (Video cls b (Path_name file_path) dv da other_args)).
Proof.
  intros Hnone.
  assert (Hs : py_truthy (popped_scale other_args) = false)
    by (unfold popped_scale; rewrite Hnone; reflexivity).
  split; [|split].
  - apply from_path_no_scale_trace, Hs.
  - intros v Hv. rewrite (from_path_no_scale_Ok _ _ _ _ _ _ _ Hs Hv).
    apply delete_id, Hnone.
  - intros b Hb Hd Hc. destruct (DecoderType_call_supported _ Hd) as [d Hd'].
    exists (backend_of d).
    rewrite (from_path_no_scale_total _ _ _ _ _ _ b d Hs Hb Hd' Hc).
    unfold outcome. simpl. rewrite delete_id by exact Hnone. reflexivity.
Qed.

Lemma from_path_without_scale_witness :
  exists cls,
    outcome (from_path "s3://bucket/clip.mp4" true false "torchvision"
               {["width" := PyInt 7]} (demo_world "s3://bucket/clip.mp4" 1920 1080)) =
      Ok (Video cls [] "clip.mp4" true false {["width" := PyInt 7]}).
Proof.
  refine (proj2 (proj2 (from_path_without_scale "s3://bucket/clip.mp4" true false "torchvision"
            {["width" := PyInt 7]} (demo_world "s3://bucket/clip.mp4" 1920 1080) eq_refl))
            [] eq_refl _ _).
  - right. left. reflexivity.
  - solve_no_clash.
Defined.

(** C8: the name passed to the constructed backend is the final segment of
    the input path, directories stripped, for every input path, local or
    remote-style: it is pathlib's name of the path; it is the one and only
    final segment the shape of the path determines (a trailing slash and a
    trailing "." segment do not count, the empty path and "." give the
    empty name); it contains no slash; and for a path that ends in a file
    segment, alone or after any directory part (a local directory or a
    remote-style prefix such as "s3://bucket/dir"), it is that segment. *)
Theorem from_path_video_name file_path dv da decoder (other_args : gmap string pyval)
    (w : world) (v : video) :
  outcome (from_path file_path dv da decoder other_args w) = Ok v ->
  video_name v = Path_name file_path ∧
  has_slash (video_name v) = false ∧
  (forall dir base, file_segment base ->
     file_path = base ∨ file_path = dir +:+ String "/" base ->
     video_name v = base) ∧
  (forall n, final_segment_of file_path n <-> n = video_name v).
Proof.
  intros Hv. apply from_path_Ok_name in Hv. rewrite Hv.
  split; [reflexivity|]. split; [apply Path_name_no_slash|]. split.
  - intros dir base Hseg [-> | ->].
    + apply Path_name_segment, Hseg.
    + apply Path_name_dir_segment, Hseg.
  - intros n. split.
    + apply final_segment_of_name.
    + intros ->. apply final_segment_of_Path_name.
Qed.

Lemma from_path_video_name_witness :
  exists v,
    outcome (from_path "s3://bucket/videos/./clip.mp4/" true true "pyav" ∅
               (demo_world "s3://bucket/videos/./clip.mp4/" 1920 1080)) = Ok v ∧
    video_name v = "clip.mp4" ∧
    final_segment_of "s3://bucket/videos/./clip.mp4/" (video_name v).
Proof.
  destruct (outcome (from_path "s3://bucket/videos/./clip.mp4/" true true "pyav" ∅
                       (demo_world "s3://bucket/videos/./clip.mp4/" 1920 1080))) as [v|e] eqn:E;
    [|vm_compute in E; discriminate E].
  exists v. split; [reflexivity|].
  destruct (from_path_video_name "s3://bucket/videos/./clip.mp4/" true true "pyav" ∅
              (demo_world "s3://bucket/videos/./clip.mp4/" 1920 1080) v E)
    as (Hname & _ & _ & Hfinal).
  split; [exact Hname|]. apply Hfinal. reflexivity.
Defined.

(** C10: when short_side_scale is supplied with a falsy value (such as 0),
    the loader does not probe the dimensions and raises no invalid-source
    error, whatever the source's dimensions are, zero included; the
    short_side_scale key is removed all the same, so the constructor never
    receives it, and the rest of the options is forwarded as given. *)
Theorem from_path_falsy_scale file_path dv da decoder (other_args : gmap string pyval)
    (w : world) (s : pyval) :
  other_args !! "short_side_scale" = Some s ->
  py_truthy s = false ->
  forallb (fun ev => negb (is_probe ev))
    (trace (from_path file_path dv da decoder other_args w)) = true ∧
  (forall p, outcome (from_path file_path dv da decoder other_args w)
               ≠ Raise (ValueError_invalid_video p)) ∧
  (forall v, outcome (from_path file_path dv da decoder other_args w) = Ok v ->
     kwargs v !! "short_side_scale" = None ∧
     kwargs v = delete "short_side_scale" other_args) ∧
  (forall b, pathmgr_contents w file_path = Some b ->
     supported_token decoder ->
     no_keyword_clash other_args ->
     exists cls,
       outcome (from_path file_path dv da decoder other_args w) =
         Ok (Video cls b (Path_name file_path) dv da (delete "short_side_scale" other_args))).
Proof.
  intros Hsome Hfalsy.
  assert (Hs : py_truthy (popped_scale other_args) = false)
    by (unfold popped_scale; rewrite Hsome; exact Hfalsy).
  split; [|split; [|split]].
  - apply from_path_no_scale_trace, Hs.
  - intros p. destruct (pathmgr_contents w file_path) as [b|] eqn:Hb.
    + rewrite (from_path_unscaled _ _ _ _ _ _ b Hb Hs).
      unfold select_and_construct. run_monad.
      destruct (DecoderType_call decoder) as [d|e] eqn:Hd.
      * destruct d; simpl; case_bool_decide; simpl; discriminate.
      * unfold DecoderType_call in Hd.
        destruct (List.find _ _); inversion Hd; subst. simpl. discriminate.
    + rewrite from_path_open_fails by assumption. simpl. discriminate.
  - intros v Hv. rewrite (from_path_no_scale_Ok _ _ _ _ _ _ _ Hs Hv).
    split; [apply lookup_delete_eq | reflexivity].
  - intros b Hb Hd Hc. destruct (DecoderType_call_supported _ Hd) as [d Hd'].
    exists (backend_of d).
    rewrite (from_path_no_scale_total _ _ _ _ _ _ b d Hs Hb Hd' Hc). reflexivity.
Qed.

Lemma from_path_falsy_scale_witness :
  exists cls,
    outcome (from_path "/data/clip.mp4" true true "pyav"
               {["short_side_scale" := PyInt 0; "perform_seek" := PyBool true]}
               (demo_world "/data/clip.mp4" 0 0)) =
      Ok (Video cls [] "clip.mp4" true true {["perform_seek" := PyBool true]}).
Proof.
  assert (Hl : ({["short_side_scale" := PyInt 0; "perform_seek" := PyBool true]}
                 : gmap string pyval) !! "short_side_scale" = Some (PyInt 0))
    by (vm_compute; reflexivity).
  destruct (from_path_falsy_scale "/data/clip.mp4" true true "pyav"
              {["short_side_scale" := PyInt 0; "perform_seek" := PyBool true]}
              (demo_world "/data/clip.mp4" 0 0) (PyInt 0) Hl eq_refl)
    as (_ & _ & _ & H).
  destruct (H [] eq_refl) as [cls Hcls].
  - left. reflexivity.
  - solve_no_clash.
  - exists cls. rewrite Hcls. reflexivity.
Defined.

(** * Further properties of the loader and the selector *)

Lemma no_keyword_clash_delete_inv (other_args : gmap string pyval) :
  no_keyword_clash (delete "short_side_scale" other_args) ->
  no_keyword_clash other_args.
Proof.
  unfold no_keyword_clash, explicit_keywords. rewrite !Forall_cons. cbv beta.
  rewrite !lookup_delete_ne by discriminate.
  intros (H1 & H2 & H3 & H4 & _). repeat split; try assumption. constructor.
Qed.

Lemma no_keyword_clash_sized_inv (other_args : gmap string pyval) (wi hi : pyval) :
  no_keyword_clash (<["height" := hi]> (<["width" := wi]> (delete "short_side_scale" other_args))) ->
  no_keyword_clash other_args.
Proof.
  unfold no_keyword_clash, explicit_keywords. rewrite !Forall_cons. cbv beta.
  rewrite !lookup_insert_ne by discriminate.
  rewrite !lookup_delete_ne by discriminate.
  intros (H1 & H2 & H3 & H4 & _). repeat split; try assumption. constructor.
Qed.

Lemma select_and_construct_cases decoder b name dv da (other_args : gmap string pyval) w :
  select_and_construct decoder b name dv da other_args w =
    match DecoderType_call decoder with
    | Raise e => ([], Raise e)
    | Ok d =>
        ([EvImport (backend_of d)],
         if bool_decide (no_keyword_clash other_args)
         then Ok (Video (backend_of d) b name dv da other_args)
         else Raise TypeError)
    end.
Proof.
  unfold select_and_construct. run_monad.
  destruct (DecoderType_call decoder) as [d|e]; [|reflexivity].
  destruct d; simpl; case_bool_decide; reflexivity.
Qed.

Lemma DecoderType_call_Ok_supported (decoder : string) (d : DecoderType) :
  DecoderType_call decoder = Ok d -> supported_token decoder.
Proof.
  intros H. apply DecoderType_call_Ok in H. subst decoder. unfold supported_token.
  destruct d; simpl; auto.
Qed.

(** The events after the read: the probe when scaling is on, nothing otherwise. *)
Lemma from_path_cases file_path dv da decoder (other_args : gmap string pyval) w :
  from_path file_path dv da decoder other_args w =
    match pathmgr_contents w file_path with
    | None => ([EvOpen file_path], Raise (OSError file_path))
    | Some b =>
        if py_truthy (popped_scale other_args) then
          match scaled_size file_path (popped_scale other_args)
                  (capture_get w file_path CAP_PROP_FRAME_WIDTH)
                  (capture_get w file_path CAP_PROP_FRAME_HEIGHT) with
          | Raise e => (read_events file_path ++ probe_events file_path, Raise e)
          | Ok (wi, hi) =>
              let '(t, r) := select_and_construct decoder b (Path_name file_path) dv da
                               (<["height" := PyInt hi]>
                                  (<["width" := PyInt wi]>
                                     (delete "short_side_scale" other_args))) w in
              (read_events file_path ++ probe_events file_path ++ t, r)
          end
        else
          let '(t, r) := select_and_construct decoder b (Path_name file_path) dv da
                           (delete "short_side_scale" other_args) w in
          (read_events file_path ++ t, r)
    end.
Proof.
  destruct (pathmgr_contents w file_path) as [b|] eqn:Hb.
  - destruct (py_truthy (popped_scale other_args)) eqn:Hs.
    + apply from_path_scaled; assumption.
    + apply from_path_unscaled; assumption.
  - apply from_path_open_fails; assumption.
Qed.

(** X1: what a successful load presupposes. If from_path returns a video,
    then the file was readable, the size computation (if a truthy
    short_side_scale asked for one) went through, the decoder token is one
    of the three, and the caller passed neither "file" nor "video_name"
    among the options. *)
Theorem from_path_returns_only_if file_path dv da decoder (other_args : gmap string pyval)
    (w : world) (v : video) :
  outcome (from_path file_path dv da decoder other_args w) = Ok v ->
  (exists b, pathmgr_contents w file_path = Some b) ∧
  (py_truthy (popped_scale other_args) = false ∨
   exists wh, scaled_size file_path (popped_scale other_args)
                (capture_get w file_path CAP_PROP_FRAME_WIDTH)
                (capture_get w file_path CAP_PROP_FRAME_HEIGHT) = Ok wh) ∧
  supported_token decoder ∧
  other_args !! "file" = None ∧
  other_args !! "video_name" = None.
Proof.
  assert (Hkeys : forall m : gmap string pyval,
             no_keyword_clash m -> m !! "file" = None ∧ m !! "video_name" = None).
  { intros m Hm. unfold no_keyword_clash, explicit_keywords in Hm.
    apply Forall_cons in Hm as [H1 Hm]. apply Forall_cons in Hm as [H2 _]. split; assumption. }
  rewrite from_path_cases. destruct (pathmgr_contents w file_path) as [b|]; [|discriminate].
  destruct (py_truthy (popped_scale other_args)).
  - destruct (scaled_size _ _ _ _) as [[wi hi]|e]; [|discriminate].
    rewrite select_and_construct_cases.
    destruct (DecoderType_call decoder) as [d|e] eqn:Hd; [|discriminate].
    unfold outcome. simpl. case_bool_decide as Hc; [|discriminate]. intros _.
    apply no_keyword_clash_sized_inv, Hkeys in Hc.
    split; [eauto|]. split; [right; eauto|].
    split; [eapply DecoderType_call_Ok_supported, Hd|exact Hc].
  - rewrite select_and_construct_cases.
    destruct (DecoderType_call decoder) as [d|e] eqn:Hd; [|discriminate].
    unfold outcome. simpl. case_bool_decide as Hc; [|discriminate]. intros _.
    apply no_keyword_clash_delete_inv, Hkeys in Hc.
    split; [eauto|]. split; [left; reflexivity|].
    split; [eapply DecoderType_call_Ok_supported, Hd|exact Hc].
Qed.

Lemma from_path_returns_only_if_witness :
  exists v,
    outcome (from_path "/data/clip.mp4" true false "decord" demo_args
               (demo_world "/data/clip.mp4" 1920 1080)) = Ok v ∧
    supported_token "decord" ∧ demo_args !! "file" = None.
Proof.
  destruct (outcome (from_path "/data/clip.mp4" true false "decord" demo_args
                       (demo_world "/data/clip.mp4" 1920 1080))) as [v|e] eqn:E;
    [|vm_compute in E; discriminate E].
  exists v. split; [reflexivity|].
  destruct (from_path_returns_only_if "/data/clip.mp4" true false "decord" demo_args
              (demo_world "/data/clip.mp4" 1920 1080) v E) as (_ & _ & Hs & Hf & _).
  split; assumption.
Defined.

(** X2: a video returned by from_path holds exactly the bytes the path
    manager served for the path, the backend class of the decoder token, and
    the two decode flags as they were passed; and by then the loader has read
    the file, probed it if (and only if) scaling was on, and imported that
    one backend, in this order. *)
Theorem from_path_video_fields file_path dv da decoder (other_args : gmap string pyval)
    (w : world) (v : video) :
  outcome (from_path file_path dv da decoder other_args w) = Ok v ->
  exists b d,
    pathmgr_contents w file_path = Some b ∧
    DecoderType_value d = decoder ∧
    file v = b ∧
    video_cls v = backend_of d ∧
    decode_video v = dv ∧
    decode_audio v = da ∧
    trace (from_path file_path dv da decoder other_args w) =
      read_events file_path ++
      (if py_truthy (popped_scale other_args) then probe_events file_path else []) ++
      [EvImport (backend_of d)].
Proof.
  rewrite from_path_cases. destruct (pathmgr_contents w file_path) as [b|]; [|discriminate].
  destruct (py_truthy (popped_scale other_args)).
  - destruct (scaled_size _ _ _ _) as [[wi hi]|e]; [|discriminate].
    rewrite select_and_construct_cases.
    destruct (DecoderType_call decoder) as [d|e] eqn:Hd; [|discriminate].
    unfold outcome, trace. simpl. case_bool_decide; [|discriminate].
    intros Hv. inversion Hv; subst v. exists b, d.
    apply DecoderType_call_Ok in Hd. repeat split; assumption.
  - rewrite select_and_construct_cases.
    destruct (DecoderType_call decoder) as [d|e] eqn:Hd; [|discriminate].
    unfold outcome, trace. simpl. case_bool_decide; [|discriminate].
    intros Hv. inversion Hv; subst v. exists b, d.
    apply DecoderType_call_Ok in Hd. repeat split; assumption.
Qed.

Lemma from_path_video_fields_witness :
  exists v,
    outcome (from_path "/data/clip.mp4" true false "torchvision" ∅
               (demo_world "/data/clip.mp4" 1920 1080)) = Ok v ∧
    file v = [] ∧ video_cls v = EncodedVideoTorchVision ∧
    decode_video v = true ∧ decode_audio v = false.
Proof.
  destruct (outcome (from_path "/data/clip.mp4" true false "torchvision" ∅
                       (demo_world "/data/clip.mp4" 1920 1080))) as [v|e] eqn:E;
    [|vm_compute in E; discriminate E].
  exists v. split; [reflexivity|].
  destruct (from_path_video_fields "/data/clip.mp4" true false "torchvision" ∅
              (demo_world "/data/clip.mp4" 1920 1080) v E)
    as (b & d & Hb & Hd & Hf & Hc & Hdv & Hda & _).
  vm_compute in Hb. injection Hb as <-.
  destruct d; try discriminate Hd.
  split; [exact Hf|]. split; [exact Hc|]. split; [exact Hdv|exact Hda].
Defined.

(** X3: the order in which from_path fails. When the path manager cannot
    open the file, its error is raised whatever else is wrong with the call,
    and nothing but the open is attempted. When the file has been read, an
    error of the size computation (a zero dimension, an overflow, a target
    that is no number) comes next, whatever the decoder token. And an option
    named "file" or "video_name", which repeats a keyword of the call of
    lines 88-94, makes that call fail with TypeError only at the very end,
    after the read, the probe and the import of the backend. *)
Theorem from_path_error_order file_path dv da decoder (other_args : gmap string pyval)
    (w : world) :
  (pathmgr_contents w file_path = None ->
   from_path file_path dv da decoder other_args w =
     ([EvOpen file_path], Raise (OSError file_path))) ∧
  (forall b e,
     pathmgr_contents w file_path = Some b ->
     py_truthy (popped_scale other_args) = true ->
     scaled_size file_path (popped_scale other_args)
       (capture_get w file_path CAP_PROP_FRAME_WIDTH)
       (capture_get w file_path CAP_PROP_FRAME_HEIGHT) = Raise e ->
     from_path file_path dv da decoder other_args w =
       (read_events file_path ++ probe_events file_path, Raise e)) ∧
  (forall b d,
     pathmgr_contents w file_path = Some b ->
     (py_truthy (popped_scale other_args) = false ∨
      exists wh, scaled_size file_path (popped_scale other_args)
                   (capture_get w file_path CAP_PROP_FRAME_WIDTH)
                   (capture_get w file_path CAP_PROP_FRAME_HEIGHT) = Ok wh) ->
     DecoderType_value d = decoder ->
     is_Some (other_args !! "file") ∨ is_Some (other_args !! "video_name") ->
     from_path file_path dv da decoder other_args w =
       (read_events file_path ++
          (if py_truthy (popped_scale other_args) then probe_events file_path else []) ++
          [EvImport (backend_of d)],
        Raise TypeError)).
Proof.
  split; [|split].
  - intros Hb. rewrite from_path_cases, Hb. reflexivity.
  - intros b e Hb Hs He. rewrite from_path_cases, Hb, Hs, He. reflexivity.
  - intros b d Hb Hsc Hd Hdup. apply DecoderType_call_Ok in Hd.
    assert (Hc : ~ no_keyword_clash other_args).
    { unfold no_keyword_clash, explicit_keywords. intros Hm.
      apply Forall_cons in Hm as [H1 Hm]. apply Forall_cons in Hm as [H2 _].
      destruct Hdup as [[x Hx] | [x Hx]]; congruence. }
    rewrite from_path_cases, Hb.
    destruct (py_truthy (popped_scale other_args)).
    + destruct Hsc as [Hf | [[wi hi] Hwh]]; [discriminate|]. rewrite Hwh.
      rewrite select_and_construct_cases, Hd.
      rewrite bool_decide_eq_false_2; [reflexivity|].
      intros Hc'. apply Hc. eapply no_keyword_clash_sized_inv, Hc'.
    + rewrite select_and_construct_cases, Hd.
      rewrite bool_decide_eq_false_2; [reflexivity|].
      intros Hc'. apply Hc. eapply no_keyword_clash_delete_inv, Hc'.
Qed.

Lemma from_path_error_order_witness :
  from_path "/data/clip.mp4" true true "pyav"
    {["short_side_scale" := PyInt 320; "video_name" := PyInt 1]}
    (demo_world "/data/clip.mp4" 1920 1080) =
  (read_events "/data/clip.mp4" ++ probe_events "/data/clip.mp4" ++ [EvImport EncodedVideoPyAV],
   Raise TypeError).
Proof.
  refine (proj2 (proj2 (from_path_error_order "/data/clip.mp4" true true "pyav"
            {["short_side_scale" := PyInt 320; "video_name" := PyInt 1]}
            (demo_world "/data/clip.mp4" 1920 1080))) [] PYAV eq_refl _ eq_refl _).
  - right. exists (568, 320). vm_compute. reflexivity.
  - right. exists (PyInt 1). vm_compute. reflexivity.
Defined.

(** X4: what from_path does to the outside, in which order. When the path
    manager cannot open the file, the open is all that happens. When the
    file has been read, it was opened, read and closed through the path
    manager before anything else; OpenCV is then asked to open that same
    path and queried for the width and then the height, once, exactly when a
    truthy short_side_scale was given; and at most one backend module is
    imported, last. No other path is touched. *)
Theorem from_path_trace_shape file_path dv da decoder (other_args : gmap string pyval)
    (w : world) :
  (pathmgr_contents w file_path = None ->
   trace (from_path file_path dv da decoder other_args w) = [EvOpen file_path]) ∧
  (forall b, pathmgr_contents w file_path = Some b ->
   exists imports,
     trace (from_path file_path dv da decoder other_args w) =
       read_events file_path ++
       (if py_truthy (popped_scale other_args) then probe_events file_path else []) ++
       imports ∧
     (imports = [] ∨ exists cls, imports = [EvImport cls])).
Proof.
  rewrite from_path_cases. split.
  - intros ->. reflexivity.
  - intros b ->. destruct (py_truthy (popped_scale other_args)).
    + destruct (scaled_size _ _ _ _) as [[wi hi]|e].
      * rewrite select_and_construct_cases.
        destruct (DecoderType_call decoder) as [d|e]; unfold trace; simpl.
        -- exists [EvImport (backend_of d)]. split; [reflexivity|]. right. eexists. reflexivity.
        -- exists []. split; [reflexivity|]. left. reflexivity.
      * exists []. split; [reflexivity|]. left. reflexivity.
    + rewrite select_and_construct_cases.
      destruct (DecoderType_call decoder) as [d|e]; unfold trace; simpl.
      * exists [EvImport (backend_of d)]. split; [reflexivity|]. right. eexists. reflexivity.
      * exists []. split; [reflexivity|]. left. reflexivity.
Qed.

Lemma from_path_trace_shape_witness :
  exists imports,
    trace (from_path "/data/clip.mp4" true true "ffmpeg" demo_args
             (demo_world "/data/clip.mp4" 1920 1080)) =
      read_events "/data/clip.mp4" ++ probe_events "/data/clip.mp4" ++ imports ∧
    (imports = [] ∨ exists cls, imports = [EvImport cls]).
Proof.
  exact (proj2 (from_path_trace_shape "/data/clip.mp4" true true "ffmpeg" demo_args
                  (demo_world "/data/clip.mp4" 1920 1080)) [] eq_refl).
Defined.

(** X5: select_video_class imports lazily: for a token of the enumeration it
    imports the module of the class it returns and no other; for any other
    string it imports nothing before it raises. *)
Theorem select_video_class_lazy_import (decoder : string) (w : world) :
  (exists d, DecoderType_value d = decoder ∧
             select_video_class decoder w = ([EvImport (backend_of d)], Ok (backend_of d))) ∨
  (~ supported_token decoder ∧
   select_video_class decoder w = ([], Raise (ValueError_not_a_DecoderType decoder))).
Proof.
  destruct (DecoderType_call decoder) as [d|e] eqn:Hd.
  - left. exists d. split; [apply DecoderType_call_Ok, Hd|].
    apply select_video_class_Ok, Hd.
  - right. assert (Hn : ~ supported_token decoder).
    { intros Hs. apply DecoderType_call_supported in Hs as [d Hd']. congruence. }
    split; [exact Hn|]. apply select_video_class_Raise, Hn.
Qed.

(** X6: the selector is injective on tokens: two decoder strings for which
    select_video_class returns the same class are the same string. *)
Theorem select_video_class_injective (a b : string) (wa wb : world) (cls : backend) :
  outcome (select_video_class a wa) = Ok cls ->
  outcome (select_video_class b wb) = Ok cls ->
  a = b.
Proof.
  destruct (DecoderType_call a) as [da|ea] eqn:Ha.
  - rewrite (select_video_class_Ok a da wa Ha).
    destruct (DecoderType_call b) as [db|eb] eqn:Hb.
    + rewrite (select_video_class_Ok b db wb Hb). unfold outcome. simpl.
      intros E1 E2. apply DecoderType_call_Ok in Ha, Hb. subst a b.
      destruct da, db; simpl in *; try reflexivity; congruence.
    + unfold DecoderType_call in Hb. run_monad. unfold DecoderType_call.
      destruct (List.find _ DecoderType_members); [discriminate Hb|].
      unfold outcome. simpl. intros _ E. discriminate E.
  - unfold DecoderType_call in Ha. run_monad. unfold DecoderType_call.
    destruct (List.find _ DecoderType_members); [discriminate Ha|].
    unfold outcome. simpl. intros E. discriminate E.
Qed.

Lemma select_video_class_injective_witness :
  outcome (select_video_class "decord" (demo_world "a.mp4" 1 1)) = Ok EncodedVideoDecord ∧
  outcome (select_video_class "decord" (demo_world "b.mp4" 2 2)) = Ok EncodedVideoDecord ∧
  "decord" = "decord".
Proof.
  split; [reflexivity|]. split; [reflexivity|].
  apply (select_video_class_injective "decord" "decord"
           (demo_world "a.mp4" 1 1) (demo_world "b.mp4" 2 2) EncodedVideoDecord);
    reflexivity.
Defined.

(** * Further properties of the size computation (lines 75-85) *)

Lemma SFcompare_Lt_swap (a b : spec_float) :
  SFcompare a b = Some Lt -> SFcompare b a = Some Gt.
Proof.
  destruct a as [sa|sa| |sa ma ea], b as [sb|sb| |sb mb eb]; simpl;
    try discriminate; try (destruct sa; discriminate || reflexivity);
    try (destruct sb; discriminate || reflexivity);
    try (destruct sa, sb; discriminate || reflexivity).
  change (Pos.compare_cont Eq) with Pos.compare.
  destruct sa, sb; try discriminate; try reflexivity;
    rewrite (Z.compare_antisym ea eb), (Pos.compare_antisym ma mb);
    destruct (ea ?= eb); simpl; try discriminate; try reflexivity;
    destruct (ma ?= mb)%positive; simpl; try discriminate; reflexivity.
Qed.

Lemma ltb_asym (x y : float) : (x <? y)%float = true -> (y <? x)%float = false.
Proof.
  rewrite !FloatAxioms.ltb_spec. unfold SFltb.
  destruct (SFcompare (Prim2SF x) (Prim2SF y)) as [[| |]|] eqn:E; try discriminate.
  intros _. rewrite (SFcompare_Lt_swap _ _ E). reflexivity.
Qed.

(** X7: transposing a source that is not square transposes the computed
    size, errors included: for an integer target and any probed numbers with
    width < height, the size computed for (height, width) is the one computed
    for (width, height) with its two components swapped. *)
Theorem scaled_size_transpose (file_path : string) (s : Z) (width height : float) :
  (width <? height)%float = true ->
  scaled_size file_path (PyInt s) height width =
    match scaled_size file_path (PyInt s) width height with
    | Ok (wi, hi) => Ok (hi, wi)
    | Raise e => Raise e
    end.
Proof.
  intros Hlt. unfold scaled_size.
  rewrite (orb_comm (height =? 0)%float (width =? 0)%float).
  destruct ((width =? 0)%float || (height =? 0)%float); [reflexivity|].
  rewrite Hlt, (ltb_asym _ _ Hlt).
  destruct (py_mul_float (PyInt s) height) as [p|e]; [|reflexivity].
  destruct (py_truediv p width) as [q|e]; [|reflexivity].
  cbn [py_int]. destruct (int_of_float q); reflexivity.
Qed.

Lemma scaled_size_transpose_witness :
  scaled_size "clip.mp4" (PyInt 320) 1920 1080 = Ok (568, 320) ∧
  scaled_size "clip.mp4" (PyInt 320) 1080 1920 = Ok (320, 568).
Proof.
  assert (H : scaled_size "clip.mp4" (PyInt 320) 1080 1920 = Ok (320, 568))
    by (vm_compute; reflexivity).
  split; [|exact H].
  rewrite (scaled_size_transpose "clip.mp4" 320 1080 1920 eq_refl), H. reflexivity.
Defined.

(** X8: for a positive integer target and a source of positive whole-number
    size, with target times the longer side below 2^53, the size computation
    succeeds; the smaller of the two computed sides is exactly the target,
    and the other one is the exact scaled length cut to a whole number: it is
    off the exact value target * long / short by less than one pixel, never
    above it. *)
Theorem scaled_size_short_side_exact (file_path : string) (s W H : Z) :
  0 < s -> 0 < W -> 0 < H -> s * Z.max W H < 2 ^ 53 ->
  exists wi hi,
    scaled_size file_path (PyInt s) (Z2F W) (Z2F H) = Ok (wi, hi) ∧
    Z.min wi hi = s ∧
    (W < H -> wi = s ∧ hi * W <= s * H < (hi + 1) * W) ∧
    (H <= W -> hi = s ∧ wi * H <= s * W < (wi + 1) * H).
Proof.
  intros Hs HW HH Hb.
  rewrite scaled_size_whole by (rewrite ?Z.abs_eq by lia; lia).
  unfold short_side_spec. destruct (Z.ltb_spec W H) as [Hlt|Hge].
  - exists s, (Z.quot (H * s) W).
    rewrite Z.quot_div_nonneg by nia.
    pose proof (Z.div_mod (H * s) W ltac:(lia)) as Hdm.
    pose proof (Z.mod_pos_bound (H * s) W HW) as Hm.
    assert (Hle : s <= H * s / W) by (apply Z.div_le_lower_bound; nia).
    split; [reflexivity|]. split; [lia|]. split; [|lia].
    intros _. split; [reflexivity|]. nia.
  - exists (Z.quot (W * s) H), s.
    rewrite Z.quot_div_nonneg by nia.
    pose proof (Z.div_mod (W * s) H ltac:(lia)) as Hdm.
    pose proof (Z.mod_pos_bound (W * s) H HH) as Hm.
    assert (Hle : s <= W * s / H) by (apply Z.div_le_lower_bound; nia).
    split; [reflexivity|]. split; [lia|]. split; [lia|].
    intros _. split; [reflexivity|]. nia.
Qed.

Lemma scaled_size_short_side_exact_witness :
  exists wi hi,
    scaled_size "clip.mp4" (PyInt 256) (Z2F 640) (Z2F 480) = Ok (wi, hi) ∧
    Z.min wi hi = 256.
Proof.
  destruct (scaled_size_short_side_exact "clip.mp4" 256 640 480) as (wi & hi & H1 & H2 & _);
    try lia.
  exists wi, hi. split; assumption.
Defined.

(** X9: a source whose shorter side already has the target length keeps its
    size: for positive whole-number sides with min(width, height) equal to
    the target (and width * height below 2^53), the computed size is
    (width, height). *)
Theorem scaled_size_fixed_point (file_path : string) (W H : Z) :
  0 < W -> 0 < H -> W * H < 2 ^ 53 ->
  scaled_size file_path (PyInt (Z.min W H)) (Z2F W) (Z2F H) = Ok (W, H).
Proof.
  intros HW HH Hb.
  rewrite scaled_size_whole by (rewrite ?Z.abs_eq by lia; nia).
  unfold short_side_spec. destruct (Z.ltb_spec W H) as [Hlt|Hge].
  - rewrite Z.min_l by lia. rewrite Z.quot_mul by lia. reflexivity.
  - rewrite Z.min_r by lia. rewrite Z.quot_mul by lia. reflexivity.
Qed.

(** X10: the computed size depends on the aspect ratio only: multiplying both
    probed sides by the same positive whole number leaves it unchanged (all
    products of the target with a side staying below 2^53). *)
Theorem scaled_size_aspect_only (file_path : string) (s k W H : Z) :
  s <> 0 -> 0 < k -> 0 < W -> 0 < H ->
  Z.abs s * Z.max (k * W) (k * H) < 2 ^ 53 ->
  scaled_size file_path (PyInt s) (Z2F (k * W)) (Z2F (k * H)) =
  scaled_size file_path (PyInt s) (Z2F W) (Z2F H).
Proof.
  intros Hs Hk HW HH Hb.
  rewrite !scaled_size_whole by nia.
  unfold short_side_spec.
  replace (k * W <? k * H) with (W <? H).
  - rewrite <- !Z.mul_assoc. rewrite !Z.quot_mul_cancel_l by lia. reflexivity.
  - destruct (Z.ltb_spec W H), (Z.ltb_spec (k * W) (k * H)); try reflexivity; nia.
Qed.

Lemma scaled_size_aspect_only_witness :
  scaled_size "clip.mp4" (PyInt 320) (Z2F 3840) (Z2F 2160) =
  scaled_size "clip.mp4" (PyInt 320) (Z2F 16) (Z2F 9).
Proof.
  apply (scaled_size_aspect_only "clip.mp4" 320 240 16 9); lia.
Defined.

Lemma scaled_size_fixed_point_witness :
  scaled_size "clip.mp4" (PyInt 480) (Z2F 640) (Z2F 480) = Ok (640, 480).
Proof.
  apply (scaled_size_fixed_point "clip.mp4" 640 480); lia.
Defined.

Lemma int_of_float_Z2F (z : Z) :
  Z.abs z < 2 ^ 53 -> int_of_float (Z2F z) = Ok z.
Proof.
  intros Hz. destruct (Z.eq_dec z 0) as [->|Hnz]; [reflexivity|].
  unfold int_of_float. rewrite Prim2SF_Z2F by assumption. unfold canon.
  destruct (canon_mantissa (Z.abs z) ltac:(lia)) as ([Hd Hd53] & Hm).
  rewrite Z2Pos.id, shiftl_nonpos by lia.
  replace (- (Zdigits2 (Z.abs z) - 53)) with (53 - Zdigits2 (Z.abs z)) by lia.
  rewrite Z.div_mul by (apply Z.pow_nonzero; lia).
  f_equal. destruct (Z.ltb_spec z 0); simpl; lia.
Qed.

Lemma Z2F_truthy (z : Z) :
  Z.abs z < 2 ^ 53 -> py_truthy (PyFloat (Z2F z)) = py_truthy (PyInt z).
Proof.
  intros Hz. simpl. f_equal. destruct (Z.eq_dec z 0) as [->|Hnz]; [reflexivity|].
  rewrite FloatAxioms.eqb_spec, Prim2SF_Z2F by assumption.
  replace (z =? 0) with false by (symmetry; apply Z.eqb_neq, Hnz).
  unfold canon. simpl. destruct (z <? 0); reflexivity.
Qed.

Lemma scaled_size_float_target (file_path : string) (s : Z) (width height : float) :
  Z.abs s < 2 ^ 53 ->
  scaled_size file_path (PyFloat (Z2F s)) width height =
  scaled_size file_path (PyInt s) width height.
Proof.
  intros Hs. unfold scaled_size, py_mul_float. rewrite float_of_int_small by assumption.
  destruct ((width =? 0)%float || (height =? 0)%float); [reflexivity|].
  destruct (width <? height)%float.
  - destruct (py_truediv _ _); [|reflexivity]. cbn [py_int].
    rewrite int_of_float_Z2F by assumption. reflexivity.
  - destruct (py_truediv _ _); [|reflexivity]. cbn [py_int].
    rewrite int_of_float_Z2F by assumption. reflexivity.
Qed.

(** X11: a target given as a float with a whole value (320.0 for 320) is
    treated like the integer, for every source and whatever comes out: the
    loader's trace and outcome are the same for short_side_scale = float(s)
    and for short_side_scale = s, for every integer s of magnitude below
    2^53. *)
Theorem from_path_float_target file_path dv da decoder (other_args : gmap string pyval)
    (w : world) (s : Z) :
  Z.abs s < 2 ^ 53 ->
  from_path file_path dv da decoder (<["short_side_scale" := PyFloat (Z2F s)]> other_args) w =
  from_path file_path dv da decoder (<["short_side_scale" := PyInt s]> other_args) w.
Proof.
  intros Hs. rewrite !from_path_cases. unfold popped_scale.
  rewrite !lookup_insert_eq, !delete_insert_eq. simpl default.
  rewrite (Z2F_truthy s Hs), (scaled_size_float_target _ s _ _ Hs). reflexivity.
Qed.

Lemma from_path_float_target_witness :
  forwarded_size (from_path "/data/clip.mp4" true true "pyav"
                    (<["short_side_scale" := PyFloat 320]> ∅)
                    (demo_world "/data/clip.mp4" 1920 1080))
    = Some (Some (PyInt 568), Some (PyInt 320)).
Proof.
  change (PyFloat 320) with (PyFloat (Z2F 320)).
  rewrite (from_path_float_target "/data/clip.mp4" true true "pyav" ∅
             (demo_world "/data/clip.mp4" 1920 1080) 320) by lia.
  vm_compute. reflexivity.
Defined.

(** X12: a target no larger than the shorter side never enlarges the source,
    and a target no smaller than it never shrinks it: for positive
    whole-number sides and a positive integer target (target times the longer
    side below 2^53), target <= min(width, height) gives a computed size within
    (width, height), and target >= min(width, height) one that covers it. *)
Theorem scaled_size_direction (file_path : string) (s W H : Z) :
  0 < s -> 0 < W -> 0 < H -> s * Z.max W H < 2 ^ 53 ->
  exists wi hi,
    scaled_size file_path (PyInt s) (Z2F W) (Z2F H) = Ok (wi, hi) ∧
    (s <= Z.min W H -> wi <= W ∧ hi <= H) ∧
    (Z.min W H <= s -> W <= wi ∧ H <= hi).
Proof.
  intros Hs HW HH Hb.
  rewrite scaled_size_whole by (rewrite ?Z.abs_eq by lia; lia).
  unfold short_side_spec. destruct (Z.ltb_spec W H) as [Hlt|Hge].
  - exists s, (Z.quot (H * s) W). rewrite Z.quot_div_nonneg by nia.
    split; [reflexivity|]. split; intros Hm.
    + split; [lia|]. apply Z.div_le_upper_bound; nia.
    + split; [lia|]. apply Z.div_le_lower_bound; nia.
  - exists (Z.quot (W * s) H), s. rewrite Z.quot_div_nonneg by nia.
    split; [reflexivity|]. split; intros Hm.
    + split; [|lia]. apply Z.div_le_upper_bound; nia.
    + split; [|lia]. apply Z.div_le_lower_bound; nia.
Qed.

Lemma scaled_size_direction_witness :
  exists wi hi,
    scaled_size "clip.mp4" (PyInt 320) (Z2F 1920) (Z2F 1080) = Ok (wi, hi) ∧
    wi <= 1920 ∧ hi <= 1080.
Proof.
  destruct (scaled_size_direction "clip.mp4" 320 1920 1080) as (wi & hi & H1 & H2 & _);
    try lia.
  exists wi, hi. split; [exact H1|]. apply H2. lia.
Defined.
